(** * scrcpy video ingest core: recorder, video buffer and stream engine

    A shallow embedding of [app/src/recorder.c], [app/src/video_buffer.c]
    and [app/src/stream.c].  Machine integers are [Z] with the wrap-around
    written out, packet payloads are lists of bytes, the C structs are
    records, and every call into FFmpeg whose result the program branches on
    is an entry of an explicit library record, so that each function can be
    evaluated on concrete inputs. *)

From Stdlib Require Import String.
From Stdlib Require Import ZArith List Bool Lia Permutation.
From Stdlib Require Import Init.Byte.
Import ListNotations.
Open Scope Z_scope.

(** ** Machine integers *)

(** [uint64_t] values are the integers of [0, 2^64). *)
Definition to_uint64 (z : Z) : Z := z mod 2 ^ 64.

(** Conversion to [int64_t]: reinterpretation modulo 2^64. *)
Definition to_int64 (z : Z) : Z := (z + 2 ^ 63) mod 2 ^ 64 - 2 ^ 63.

Definition in_uint64 (z : Z) : Prop := 0 <= z < 2 ^ 64.
Definition in_int64 (z : Z) : Prop := - 2 ^ 63 <= z < 2 ^ 63.

(** [a - b] on [int64_t] operands. *)
Definition sub64 (a b : Z) : Z := to_int64 (a - b).

(** libavutil/avutil.h:
    [#define AV_NOPTS_VALUE ((int64_t)UINT64_C(0x8000000000000000))] *)
Definition AV_NOPTS_VALUE : Z := to_int64 0x8000000000000000.

(** libavcodec: [#define AV_PKT_FLAG_KEY 0x0001] *)
Definition AV_PKT_FLAG_KEY : Z := 1.

(** ** Packets *)

(** The fields of [AVPacket] the program reads or writes.  [data] is the
    payload buffer; [size] is its length. *)
Record AVPacket : Type := mkAVPacket {
  data : list byte;
  pts : Z;
  dts : Z;
  duration : Z;
  flags : Z
}.

Definition size (p : AVPacket) : Z := Z.of_nat (length (data p)).

Definition set_pts (p : AVPacket) (v : Z) : AVPacket :=
  mkAVPacket (data p) v (dts p) (duration p) (flags p).
Definition set_dts (p : AVPacket) (v : Z) : AVPacket :=
  mkAVPacket (data p) (pts p) v (duration p) (flags p).
Definition set_duration (p : AVPacket) (v : Z) : AVPacket :=
  mkAVPacket (data p) (pts p) (dts p) v (flags p).
Definition set_flags (p : AVPacket) (v : Z) : AVPacket :=
  mkAVPacket (data p) (pts p) (dts p) (duration p) v.

(** [av_init_packet] followed by the assignment of [data] and [size]. *)
Definition av_init_packet (bytes : list byte) : AVPacket :=
  mkAVPacket bytes AV_NOPTS_VALUE AV_NOPTS_VALUE 0 0.

(** ** Logging *)

Inductive log_level : Type := LOGD | LOGI | LOGW | LOGE | LOGC.
Definition log_entry : Type := (log_level * string)%type.

(** ** The muxer *)

(** Calls made on the output context, in order, with their return codes. *)
Inductive av_call : Type :=
| WriteHeader (ret : Z)
| WriteFrame (packet : AVPacket) (ret : Z)
| WriteTrailer (ret : Z).

(** [recorder->ctx]: the extradata of stream 0 and the calls made so far. *)
Record AVFormatContext : Type := mkCtx {
  extradata : option (list byte);
  extradata_size : Z;
  calls : list av_call
}.

Definition ctx_call (c : AVFormatContext) (e : av_call) : AVFormatContext :=
  mkCtx (extradata c) (extradata_size c) (calls c ++ [e]).

(** Results of the FFmpeg and libc calls the recorder branches on.  Each may
    depend on what the program has done so far. *)
Record libav : Type := mkLibav {
  av_malloc_ok : AVFormatContext -> Z -> bool;
  avformat_write_header : AVFormatContext -> Z;
  av_packet_rescale_ts : AVFormatContext -> AVPacket -> AVPacket;
  av_write_frame : AVFormatContext -> AVPacket -> Z;
  av_write_trailer : AVFormatContext -> Z;
  malloc_ok : list AVPacket -> bool;
  av_packet_ref : AVPacket -> Z
}.

(** ** Recorder state *)

(** [struct recorder].  [queue] is the FIFO of [record_packet]s, head first;
    [previous] is NULL or the packet dequeued last; [cond_signals] counts
    the calls of [sc_cond_signal] on [queue_cond]; [logs] is the log output. *)
Record recorder : Type := mkRecorder {
  ctx : AVFormatContext;
  header_written : bool;
  stopped : bool;
  failed : bool;
  queue : list AVPacket;
  previous : option AVPacket;
  cond_signals : nat;
  logs : list log_entry
}.

Definition set_ctx (r : recorder) (c : AVFormatContext) : recorder :=
  mkRecorder c (header_written r) (stopped r) (failed r) (queue r)
             (previous r) (cond_signals r) (logs r).
Definition set_header_written (r : recorder) (b : bool) : recorder :=
  mkRecorder (ctx r) b (stopped r) (failed r) (queue r)
             (previous r) (cond_signals r) (logs r).
Definition set_stopped (r : recorder) (b : bool) : recorder :=
  mkRecorder (ctx r) (header_written r) b (failed r) (queue r)
             (previous r) (cond_signals r) (logs r).
Definition set_failed (r : recorder) (b : bool) : recorder :=
  mkRecorder (ctx r) (header_written r) (stopped r) b (queue r)
             (previous r) (cond_signals r) (logs r).
Definition set_queue (r : recorder) (q : list AVPacket) : recorder :=
  mkRecorder (ctx r) (header_written r) (stopped r) (failed r) q
             (previous r) (cond_signals r) (logs r).
Definition set_previous (r : recorder) (p : option AVPacket) : recorder :=
  mkRecorder (ctx r) (header_written r) (stopped r) (failed r) (queue r)
             p (cond_signals r) (logs r).
Definition sc_cond_signal (r : recorder) : recorder :=
  mkRecorder (ctx r) (header_written r) (stopped r) (failed r) (queue r)
             (previous r) (S (cond_signals r)) (logs r).
Definition log (r : recorder) (l : log_level) (msg : string) : recorder :=
  mkRecorder (ctx r) (header_written r) (stopped r) (failed r) (queue r)
             (previous r) (cond_signals r) (logs r ++ [(l, msg)]).

Definition queue_is_empty (q : list AVPacket) : bool :=
  match q with [] => true | _ :: _ => false end.

(** [recorder_init], after its allocations succeeded. *)
Definition recorder_init : recorder :=
  mkRecorder (mkCtx None 0 []) false false false [] None 0 [].

Section RecorderCode.

Variable lib : libav.

(** [record_packet_new]: NULL when [malloc] or [av_packet_ref] fails,
    otherwise a record holding a new reference to the packet. *)
Definition record_packet_new (q : list AVPacket) (packet : AVPacket)
  : option AVPacket :=
  if negb (malloc_ok lib q) then None
  else if negb (av_packet_ref lib packet =? 0) then None
  else Some packet.

(** [recorder_queue_clear] *)
Definition recorder_queue_clear (r : recorder) : recorder := set_queue r [].

(** [recorder_write_header] *)
Definition recorder_write_header (r : recorder) (packet : AVPacket)
  : bool * recorder :=
  if negb (av_malloc_ok lib (ctx r) (size packet)) then
    (false, log r LOGC "Could not allocate extradata")
  else
    (* copy the first packet to the extra data *)
    let bytes := firstn (Z.to_nat (size packet)) (data packet) in
    let c1 := mkCtx (Some bytes) (size packet) (calls (ctx r)) in
    let ret := avformat_write_header lib c1 in
    let r1 := set_ctx r (ctx_call c1 (WriteHeader ret)) in
    if ret <? 0 then (false, log r1 LOGE "Failed to write header to %s")
    else (true, r1).

(** [recorder_rescale_packet] followed by [av_write_frame]. *)
Definition recorder_write_frame (r : recorder) (packet : AVPacket)
  : bool * recorder :=
  let packet' := av_packet_rescale_ts lib (ctx r) packet in
  let ret := av_write_frame lib (ctx r) packet' in
  (0 <=? ret, set_ctx r (ctx_call (ctx r) (WriteFrame packet' ret))).

(** [recorder_write] *)
Definition recorder_write (r : recorder) (packet : AVPacket)
  : bool * recorder :=
  if negb (header_written r) then
    if negb (pts packet =? AV_NOPTS_VALUE) then
      (false, log r LOGE "The first packet is not a config packet")
    else
      let (ok, r1) := recorder_write_header r packet in
      if negb ok then (false, r1)
      else (true, set_header_written r1 true)
  else if pts packet =? AV_NOPTS_VALUE then
    (* ignore config packets *)
    (true, r)
  else recorder_write_frame r packet.

(** How one pass through the [for (;;)] of [run_recorder] ends. *)
Inductive iteration : Type :=
| Wait                      (* blocked in sc_cond_wait *)
| Continue (r : recorder)   (* back to the top of the loop *)
| Break (r : recorder).     (* left the loop *)

(** One pass through the body of the [for (;;)] of [run_recorder], from
    taking the mutex to the end of the body.  The pass is taken as a unit:
    outside the mutex it only touches [previous], [header_written] and the
    output context, which no other thread uses, and a packet pushed while a
    failing write is under way is dropped by [recorder_queue_clear] just as
    one pushed before the pass. *)
Definition run_recorder_iteration (r : recorder) : iteration :=
  if negb (stopped r) && queue_is_empty (queue r) then Wait
  else if stopped r && queue_is_empty (queue r) then
    match previous r with
    | Some last =>
        (* assign an arbitrary duration to the last packet *)
        let last := set_duration last 100000 in
        let (ok, r1) := recorder_write r last in
        if negb ok then Break (log r1 LOGW "Could not record last packet")
        else Break r1
    | None => Break r
    end
  else
    match queue r with
    | [] => Wait
    | rec :: rest =>
        let r1 := set_queue r rest in
        let previous_ := previous r1 in
        let r2 := set_previous r1 (Some rec) in
        match previous_ with
        | None => Continue r2   (* we just received the first packet *)
        | Some prev =>
            let prev :=
              if negb (pts rec =? AV_NOPTS_VALUE)
                 && negb (pts prev =? AV_NOPTS_VALUE)
              then set_duration prev (sub64 (pts rec) (pts prev))
              else prev in
            let (ok, r3) := recorder_write r2 prev in
            if negb ok then
              let r4 := log r3 LOGE "Could not record packet" in
              Break (recorder_queue_clear (set_failed r4 true))
            else Continue r3
        end
    end.

(** The code of [run_recorder] after the loop. *)
Definition run_recorder_finish (r : recorder) : recorder :=
  let r1 :=
    if negb (failed r) then
      if header_written r then
        let ret := av_write_trailer lib (ctx r) in
        let r' := set_ctx r (ctx_call (ctx r) (WriteTrailer ret)) in
        if ret <? 0 then
          set_failed (log r' LOGE "Failed to write trailer to %s") true
        else r'
      else set_failed r true   (* the recorded file is empty *)
    else r in
  let r2 :=
    if failed r1 then log r1 LOGE "Recording failed to %s"
    else log r1 LOGI "Recording complete to %s file: %s" in
  log r2 LOGD "Recorder thread ended".

(** The loop of [run_recorder] while no other thread touches the recorder. *)
Inductive loop_result : Type :=
| Blocked (r : recorder)
| Exited (r : recorder)
| OutOfFuel.

Fixpoint run_recorder_loop (fuel : nat) (r : recorder) : loop_result :=
  match fuel with
  | O => OutOfFuel
  | S fuel' =>
      match run_recorder_iteration r with
      | Wait => Blocked r
      | Continue r' => run_recorder_loop fuel' r'
      | Break r' => Exited r'
      end
  end.

(** [run_recorder] from its first line to [return 0]. *)
Definition run_recorder (fuel : nat) (r : recorder) : loop_result :=
  match run_recorder_loop fuel r with
  | Exited r' => Exited (run_recorder_finish r')
  | other => other
  end.

(** [recorder_push]; [None] when [assert(!recorder->stopped)] fails. *)
Definition recorder_push (r : recorder) (packet : AVPacket)
  : option (bool * recorder) :=
  if stopped r then None
  else if failed r then
    (* reject any new packet (this will stop the stream) *)
    Some (false, r)
  else
    match record_packet_new (queue r) packet with
    | None => Some (false, log r LOGC "Could not allocate record packet")
    | Some rec => Some (true, sc_cond_signal (set_queue r (queue r ++ [rec])))
    end.

(** [recorder_close] up to [sc_thread_join]: the stop request. *)
Definition recorder_close_request (r : recorder) : recorder :=
  sc_cond_signal (set_stopped r true).

End RecorderCode.

(** ** Video buffer *)

(** A decoded picture is opaque; it is identified by a number. *)
Definition picture : Type := N.

(** An allocated [AVFrame]: blank ([None], as after [av_frame_alloc] or
    [av_frame_unref]) or holding a picture. *)
Definition AVFrame : Type := option picture.

(** [struct video_buffer_callbacks]: each entry is a function pointer of the
    consumer; the model keeps whether it is non-NULL. *)
Record video_buffer_callbacks : Type := mkCallbacks {
  on_frame_available : bool;
  on_frame_skipped : bool
}.

(** A call through one entry of the callback table, with its userdata. *)
Inductive invocation : Type :=
| OnFrameAvailable (userdata : Z)
| OnFrameSkipped (userdata : Z).

(** [struct video_buffer].  [invoked] lists the callback calls made so far
    and [released] the pictures dropped by [av_frame_unref], both in order. *)
Record video_buffer : Type := mkVideoBuffer {
  producer_frame : AVFrame;
  pending_frame : AVFrame;
  consumer_frame : AVFrame;
  pending_frame_consumed : bool;
  cbs : option video_buffer_callbacks;
  cbs_userdata : Z;
  invoked : list invocation;
  released : list picture
}.

(** [video_buffer_init], after its allocations succeeded; [cbs_userdata] is
    not initialised by the code. *)
Definition video_buffer_init (garbage : Z) : video_buffer :=
  mkVideoBuffer None None None true None garbage [] [].

(** [video_buffer_set_consumer_callbacks]; [None] when an [assert] fails. *)
Definition video_buffer_set_consumer_callbacks
    (vb : video_buffer) (c : video_buffer_callbacks) (userdata : Z)
  : option video_buffer :=
  match cbs vb with
  | Some _ => None                       (* must be set only once *)
  | None =>
      if negb (on_frame_available c) then None
      else Some (mkVideoBuffer (producer_frame vb) (pending_frame vb)
                               (consumer_frame vb) (pending_frame_consumed vb)
                               (Some c) userdata (invoked vb) (released vb))
  end.

(** [av_frame_unref(vb->pending_frame)] *)
Definition unref_pending_frame (vb : video_buffer) : video_buffer :=
  mkVideoBuffer (producer_frame vb) None (consumer_frame vb)
                (pending_frame_consumed vb) (cbs vb) (cbs_userdata vb)
                (invoked vb)
                (match pending_frame vb with
                 | Some p => released vb ++ [p]
                 | None => released vb
                 end).

(** [swap_frames(&vb->producer_frame, &vb->pending_frame)] *)
Definition swap_producer_pending (vb : video_buffer) : video_buffer :=
  mkVideoBuffer (pending_frame vb) (producer_frame vb) (consumer_frame vb)
                (pending_frame_consumed vb) (cbs vb) (cbs_userdata vb)
                (invoked vb) (released vb).

(** [swap_frames(&vb->consumer_frame, &vb->pending_frame)] *)
Definition swap_consumer_pending (vb : video_buffer) : video_buffer :=
  mkVideoBuffer (producer_frame vb) (consumer_frame vb) (pending_frame vb)
                (pending_frame_consumed vb) (cbs vb) (cbs_userdata vb)
                (invoked vb) (released vb).

Definition set_pending_frame_consumed (vb : video_buffer) (b : bool)
  : video_buffer :=
  mkVideoBuffer (producer_frame vb) (pending_frame vb) (consumer_frame vb)
                b (cbs vb) (cbs_userdata vb) (invoked vb) (released vb).

Definition invoke (vb : video_buffer) (i : invocation) : video_buffer :=
  mkVideoBuffer (producer_frame vb) (pending_frame vb) (consumer_frame vb)
                (pending_frame_consumed vb) (cbs vb) (cbs_userdata vb)
                (invoked vb ++ [i]) (released vb).

(** [video_buffer_producer_offer_frame]; [None] when [assert(vb->cbs)] fails
    or the call goes through a NULL [on_frame_available]. *)
Definition video_buffer_producer_offer_frame (vb : video_buffer)
  : option video_buffer :=
  match cbs vb with
  | None => None
  | Some c =>
      let vb1 := unref_pending_frame vb in
      let vb2 := swap_producer_pending vb1 in
      let skipped := negb (pending_frame_consumed vb2) in
      let vb3 := set_pending_frame_consumed vb2 false in
      if skipped then
        if on_frame_skipped c
        then Some (invoke vb3 (OnFrameSkipped (cbs_userdata vb3)))
        else Some vb3
      else
        if on_frame_available c
        then Some (invoke vb3 (OnFrameAvailable (cbs_userdata vb3)))
        else None
  end.

(** [video_buffer_consumer_take_frame]; [None] when
    [assert(!vb->pending_frame_consumed)] fails.  The frame returned is
    [vb->consumer_frame]. *)
Definition video_buffer_consumer_take_frame (vb : video_buffer)
  : option (AVFrame * video_buffer) :=
  if pending_frame_consumed vb then None
  else
    let vb1 := set_pending_frame_consumed vb true in
    let vb2 := swap_consumer_pending vb1 in
    let vb3 := unref_pending_frame vb2 in
    Some (consumer_frame vb3, vb3).

(** The producer decodes a picture into [vb->producer_frame], the only slot
    it writes before it offers the frame. *)
Definition producer_store (vb : video_buffer) (p : picture) : video_buffer :=
  mkVideoBuffer (Some p) (pending_frame vb) (consumer_frame vb)
                (pending_frame_consumed vb) (cbs vb) (cbs_userdata vb)
                (invoked vb) (released vb).

(** The producer offers picture [p]: it fills its slot and publishes it. *)
Definition offer_frame (vb : video_buffer) (p : picture)
  : option video_buffer :=
  video_buffer_producer_offer_frame (producer_store vb p).

(** The callback entries called by an offer that took [vb] to [vb']. *)
Definition invoked_since (vb vb' : video_buffer) : list invocation :=
  skipn (length (invoked vb)) (invoked vb').

Definition is_available (i : invocation) : bool :=
  match i with OnFrameAvailable _ => true | OnFrameSkipped _ => false end.
Definition is_skipped (i : invocation) : bool :=
  match i with OnFrameAvailable _ => false | OnFrameSkipped _ => true end.

(** Number of calls of each entry in a list of invocations. *)
Definition count_available (l : list invocation) : nat :=
  length (filter is_available l).
Definition count_skipped (l : list invocation) : nat :=
  length (filter is_skipped l).

(** ** Stream engine *)

Definition HEADER_SIZE : Z := 12.

(** [#define NO_PTS UINT64_C(-1)] *)
Definition NO_PTS : Z := to_uint64 (-1).

(** Conversion to [int]. *)
Definition to_int32 (z : Z) : Z := (z + 2 ^ 31) mod 2 ^ 32 - 2 ^ 31.

Definition byte_val (b : byte) : Z := Z.of_N (Byte.to_N b).

(** Big-endian value of a byte sequence. *)
Fixpoint read_be (acc : Z) (bs : list byte) : Z :=
  match bs with
  | [] => acc
  | b :: rest => read_be (acc * 256 + byte_val b) rest
  end.

(** Modelled from the spec: [buffer_read64be] and [buffer_read32be] of
    buffer_util.h, which is not among the sources: big-endian scalar readers
    that decode from a fixed buffer and are total. *)
Definition buffer_read64be (buf : list byte) : Z := read_be 0 (firstn 8 buf).
Definition buffer_read32be (buf : list byte) : Z := read_be 0 (firstn 4 buf).

(** Modelled from the spec: [net_recv_all], which is not among the sources:
    it reads exactly [n] bytes unless the socket reports end-of-stream first.
    A socket is the bytes the peer sends before it closes; the result is the
    bytes read (their number is the return value) and the remaining socket. *)
Definition net_recv_all (sock : list byte) (n : Z) : list byte * list byte :=
  (firstn (Z.to_nat n) sock, skipn (Z.to_nat n) sock).

(** What one call of [av_parser_parse2] gives back: the number of input
    bytes used, the output buffer ([out_len] is its length), and the
    parser's [key_frame] field after the call. *)
Record parse_result : Type := mkParseResult {
  consumed : Z;
  out_data : list byte;
  key_frame : Z
}.

Definition out_len (p : parse_result) : Z := Z.of_nat (length (out_data p)).

(** Results of the calls the stream thread branches on, and whether
    [SDL_assert] is compiled in.  The parser is given [in_data] and [in_len];
    its answer may depend on the number of calls made before. *)
Record stream_env : Type := mkStreamEnv {
  av_parser_parse2 : nat -> list byte -> Z -> parse_result;
  decoder_push : AVPacket -> bool;
  av_malloc_packet_ok : Z -> bool;
  sdl_assert_enabled : bool
}.

(** [struct stream].  [stream_decoder] tells whether a decoder is attached;
    [stream_recorder] is the attached recorder if any; [parser_calls] counts
    the calls of the parser; [delivered] lists the packets handed to the
    recorder, in order; [stream_logs] is the log output of the thread. *)
Record stream : Type := mkStream {
  socket : list byte;
  stream_decoder : bool;
  stream_recorder : option recorder;
  receiver_state_pts : Z;
  parser_calls : nat;
  delivered : list AVPacket;
  stream_logs : list log_entry
}.

(** [stream_init] *)
Definition stream_init (sock : list byte) (dec : bool)
    (rec : option recorder) : stream :=
  mkStream sock dec rec NO_PTS 0 [] [].

Definition set_socket (s : stream) (sock : list byte) : stream :=
  mkStream sock (stream_decoder s) (stream_recorder s)
           (receiver_state_pts s) (parser_calls s) (delivered s)
           (stream_logs s).
Definition set_receiver_state_pts (s : stream) (v : Z) : stream :=
  mkStream (socket s) (stream_decoder s) (stream_recorder s)
           v (parser_calls s) (delivered s) (stream_logs s).
Definition set_stream_recorder (s : stream) (r : recorder) : stream :=
  mkStream (socket s) (stream_decoder s) (Some r)
           (receiver_state_pts s) (parser_calls s) (delivered s)
           (stream_logs s).
Definition parser_called (s : stream) : stream :=
  mkStream (socket s) (stream_decoder s) (stream_recorder s)
           (receiver_state_pts s) (S (parser_calls s)) (delivered s)
           (stream_logs s).
Definition deliver (s : stream) (p : AVPacket) : stream :=
  mkStream (socket s) (stream_decoder s) (stream_recorder s)
           (receiver_state_pts s) (parser_calls s) (delivered s ++ [p])
           (stream_logs s).
Definition stream_log (s : stream) (l : log_level) (msg : string) : stream :=
  mkStream (socket s) (stream_decoder s) (stream_recorder s)
           (receiver_state_pts s) (parser_calls s) (delivered s)
           (stream_logs s ++ [(l, msg)]).

(** Outcome of code that may stop on a failed assertion or loop. *)
Inductive result (A : Type) : Type :=
| Ok (a : A)
| AssertFailed
| NoFuel.
Arguments Ok {A} a.
Arguments AssertFailed {A}.
Arguments NoFuel {A}.

Section StreamCode.

Variable lib : libav.
Variable env : stream_env.

(** [stream_recv_packet]: the boolean result, [*out_data] and the stream. *)
Definition stream_recv_packet (s : stream)
  : result (bool * list byte * stream) :=
  let (header, sock1) := net_recv_all (socket s) HEADER_SIZE in
  let s1 := set_socket s sock1 in
  if Z.of_nat (length header) <? HEADER_SIZE then Ok (false, [], s1)
  else
    let s2 := set_receiver_state_pts s1 (buffer_read64be header) in
    let len := buffer_read32be (skipn 8 header) in
    if sdl_assert_enabled env && (len =? 0) then AssertFailed
    else if negb (av_malloc_packet_ok env len) then
      Ok (false, [], stream_log s2 LOGE "Could not allocate packet buffer")
    else
      let (buf, sock2) := net_recv_all (socket s2) len in
      let s3 := set_socket s2 sock2 in
      if Z.of_nat (length buf) <? len then Ok (false, buf, s3)
      else Ok (true, buf, s3).

(** [process_packet] *)
Definition process_packet (s : stream) (packet : AVPacket)
  : bool * stream :=
  let pts_ := receiver_state_pts s in
  if stream_decoder s && negb (decoder_push env packet) then (false, s)
  else
    match stream_recorder s with
    | Some r =>
        let packet := set_pts packet (to_int64 pts_) in
        let packet := set_dts packet (to_int64 pts_) in
        let s1 := stream_log s LOGD "recording with pts = %d" in
        let (ok, r') := recorder_write lib r packet in
        let s2 := set_stream_recorder (deliver s1 packet) r' in
        if negb ok then
          (false, stream_log s2 LOGE "Could not write frame to output file")
        else (true, s2)
    | None => (true, s)
    end.

(** The [while (in_len)] loop of [stream_parse]. *)
Fixpoint stream_parse_loop (fuel : nat) (s : stream)
    (in_data : list byte) (in_len : Z) : result (bool * stream) :=
  if in_len =? 0 then Ok (true, s)
  else
    match fuel with
    | O => NoFuel
    | S fuel' =>
        let res := av_parser_parse2 env (parser_calls s) in_data in_len in
        let r := consumed res in
        let s1 := parser_called s in
        let in_data' := skipn (Z.to_nat r) in_data in
        let in_len' := to_int32 (in_len - r) in
        if negb (out_len res =? 0) then
          let packet := av_init_packet (out_data res) in
          let packet :=
            if key_frame res =? 1
            then set_flags packet (Z.lor (flags packet) AV_PKT_FLAG_KEY)
            else packet in
          let (ok, s2) := process_packet s1 packet in
          if negb ok then
            Ok (false, stream_log s2 LOGE "Could not process packet")
          else stream_parse_loop fuel' s2 in_data' in_len'
        else stream_parse_loop fuel' s1 in_data' in_len'
    end.

(** [stream_parse] *)
Definition stream_parse (fuel : nat) (s : stream) (payload : list byte)
  : result (bool * stream) :=
  if sdl_assert_enabled env && (receiver_state_pts s =? NO_PTS)
  then AssertFailed
  else
    let in_len := to_int32 (Z.of_nat (length payload)) in
    if negb (receiver_state_pts s =? NO_PTS)
    then stream_parse_loop fuel s payload in_len
    else Ok (true, s).

(** The [for (;;)] loop of [run_stream], up to [LOGD("End of frames")]. *)
Fixpoint run_stream_loop (fuel : nat) (s : stream) : result stream :=
  match fuel with
  | O => NoFuel
  | S fuel' =>
      match stream_recv_packet s with
      | Ok (false, _, s1) => Ok (stream_log s1 LOGD "End of frames")
      | Ok (true, payload, s1) =>
          match stream_parse fuel' s1 payload with
          | Ok (false, s2) => Ok (stream_log s2 LOGD "End of frames")
          | Ok (true, s2) => run_stream_loop fuel' s2
          | AssertFailed => AssertFailed
          | NoFuel => NoFuel
          end
      | AssertFailed => AssertFailed
      | NoFuel => NoFuel
      end
  end.

End StreamCode.

(** The recorder's test for a packet without timestamp. *)
Definition pts_absent (p : AVPacket) : bool := pts p =? AV_NOPTS_VALUE.

(** A packet is a config packet of the wire protocol when the timestamp it
    carries is the converted sentinel [NO_PTS]. *)
Definition carries_no_pts (p : AVPacket) : bool := pts p =? to_int64 NO_PTS.

(** The delivery order the recorder relies on: the first packet handed to
    it, if any, carries the sentinel. *)
Definition config_packet_first (l : list AVPacket) : Prop :=
  match l with
  | [] => True
  | p :: _ => carries_no_pts p = true
  end.

(** ** Observations on the recorder *)

(** The recorder an iteration leaves behind, if it ran. *)
Definition iteration_state (i : iteration) : option recorder :=
  match i with
  | Wait => None
  | Continue r => Some r
  | Break r => Some r
  end.

(** The packets passed to [av_write_frame], in order. *)
Fixpoint frames_written (l : list av_call) : list AVPacket :=
  match l with
  | [] => []
  | WriteFrame p _ :: rest => p :: frames_written rest
  | _ :: rest => frames_written rest
  end.

(** ** Fixtures *)

(** A library in which every call succeeds and the stream time base is the
    one of the pipeline, so that rescaling changes nothing. *)
Definition lib_ok : libav :=
  mkLibav (fun _ _ => true) (fun _ => 0) (fun _ p => p)
          (fun _ _ => 0) (fun _ => 0) (fun _ => true) (fun _ => 0).

(** The same library, except that [avformat_write_header] fails. *)
Definition lib_header_fails : libav :=
  mkLibav (fun _ _ => true) (fun _ => -1) (fun _ p => p)
          (fun _ _ => 0) (fun _ => 0) (fun _ => true) (fun _ => 0).

(** The same library, except that [malloc] gives NULL. *)
Definition lib_no_memory : libav :=
  mkLibav (fun _ _ => true) (fun _ => 0) (fun _ p => p)
          (fun _ _ => 0) (fun _ => 0) (fun _ => false) (fun _ => 0).

(** The same library, except that [av_write_frame] fails. *)
Definition lib_frame_fails : libav :=
  mkLibav (fun _ _ => true) (fun _ => 0) (fun _ p => p)
          (fun _ _ => -1) (fun _ => 0) (fun _ => true) (fun _ => 0).

(** A parser fed complete frames: it uses the whole input and returns it as
    one packet; no key frame.  No decoder failure, no allocation failure. *)
Definition env_complete_frames (asserts : bool) : stream_env :=
  mkStreamEnv (fun _ input in_len => mkParseResult in_len input 0)
              (fun _ => true) (fun _ => true) asserts.

Definition byte_of_Z (z : Z) : byte :=
  match Byte.of_N (Z.to_N z) with Some b => b | None => x00 end.

(** Big-endian encoding of [z] on [n] bytes. *)
Fixpoint be_bytes (n : nat) (z : Z) : list byte :=
  match n with
  | O => []
  | S n' => be_bytes n' (z / 256) ++ [byte_of_Z (z mod 256)]
  end.

(** One framed item of the wire protocol. *)
Definition wire_item (pts_ : Z) (payload : list byte) : list byte :=
  be_bytes 8 pts_ ++ be_bytes 4 (Z.of_nat (length payload)) ++ payload.

Definition config_bytes : list byte :=
  map byte_of_Z [0xC0; 0xC1; 0xC2; 0xC3; 0xC4; 0xC5; 0xC6].
Definition frame_bytes : list byte :=
  map byte_of_Z [0xF0; 0xF1; 0xF2; 0xF3; 0xF4].

(** Scenario S1 of the specification: a config item, one frame, then EOF. *)
Definition socket_S1 : list byte :=
  wire_item NO_PTS config_bytes ++ wire_item 1000000 frame_bytes.

(** A config packet and two frames as the recorder expects them. *)
Definition config_packet : AVPacket :=
  mkAVPacket config_bytes AV_NOPTS_VALUE AV_NOPTS_VALUE 0 0.
Definition frame_packet (t : Z) : AVPacket :=
  mkAVPacket frame_bytes t t 0 0.

(** A recorder whose header has been written from [config_packet]. *)
Definition recorder_after_header : recorder :=
  snd (recorder_write lib_ok recorder_init config_packet).

(** Callback tables: both entries set, and [on_frame_skipped] left NULL. *)
Definition cbs_both : video_buffer_callbacks := mkCallbacks true true.
Definition cbs_no_skipped : video_buffer_callbacks := mkCallbacks true false.

(** The recorder of scenario S2 when the second frame has just been queued:
    the header is written and the first frame sits in the carry slot. *)
Definition recorder_S2_second_frame : recorder :=
  set_previous (set_queue recorder_after_header [frame_packet 1040000])
               (Some (frame_packet 1000000)).

(** The recorder of scenario S1 at the end of the stream: the queue is
    empty, the stop request is in, and the only frame is in the carry slot. *)
Definition recorder_S1_stopped : recorder :=
  recorder_close_request
    (set_previous recorder_after_header (Some (frame_packet 1000000))).

(** One schedule of a recording: the stream thread pushes the packets in
    turn, giving up at the first push that is refused, then asks to stop,
    and the recorder thread runs when it is joined. *)
Fixpoint push_all (lib : libav) (r : recorder) (l : list AVPacket)
  : recorder :=
  match l with
  | [] => r
  | p :: rest =>
      match recorder_push lib r p with
      | Some (true, r') => push_all lib r' rest
      | Some (false, r') => r'
      | None => r
      end
  end.

Definition record_all (lib : libav) (l : list AVPacket) : loop_result :=
  run_recorder lib (S (length l))
               (recorder_close_request (push_all lib recorder_init l)).

(** The calls made on the output context by a finished recording. *)
Definition calls_of (res : loop_result) : list av_call :=
  match res with
  | Exited r => calls (ctx r)
  | _ => []
  end.

Definition failed_of (res : loop_result) : bool :=
  match res with
  | Exited r => failed r
  | _ => true
  end.

(** A video buffer whose consumer registered no [on_frame_skipped] and has
    not yet taken the one picture offered so far. *)
Definition vb_unconsumed_no_skipped : video_buffer :=
  mkVideoBuffer None (Some 1%N) None false (Some cbs_no_skipped) 7
                [OnFrameAvailable 7] [].

(** A video buffer right after its consumer registered both callbacks. *)
Definition vb_registered : video_buffer :=
  mkVideoBuffer None None None true (Some cbs_both) 7 [] [].

(** Scenario S1 on the stream engine: a recorder and no decoder. *)
Definition stream_S1 : stream :=
  stream_init socket_S1 false (Some recorder_init).

(** A stream whose recorder has its header written and whose last
    meta-header carried the timestamp 1000000. *)
Definition stream_recording : stream :=
  set_receiver_state_pts
    (stream_init [] false (Some recorder_after_header)) 1000000.

(** A stream right after the meta-header of a config item was read: the
    received pts is the sentinel and the recorder is fresh. *)
Definition stream_at_config : stream :=
  stream_init [] false (Some recorder_init).

(** The packet the parser makes of a payload, as [process_packet] gets it. *)
Definition parsed_packet (payload : list byte) : AVPacket :=
  av_init_packet payload.

(** ** What a recording should contain *)

Definition timestamped (p : AVPacket) : bool := negb (pts_absent p).

(** The packets of a recording with their durations settled, written from
    the rule of the recorder: a packet followed by [next] lasts until
    [next] when both carry a timestamp, keeps its duration otherwise, and
    the last packet lasts 100000. *)
Fixpoint expected_frames (prev : AVPacket) (rest : list AVPacket)
  : list AVPacket :=
  match rest with
  | [] => [set_duration prev 100000]
  | next :: rest' =>
      (if timestamped next && timestamped prev
       then set_duration prev (sub64 (pts next) (pts prev))
       else prev)
      :: expected_frames next rest'
  end.


(** [c] is a call of [av_write_frame] on the packet [p] rescaled by [f],
    and it succeeded. *)
Definition frame_call (f : AVPacket -> AVPacket) (c : av_call)
    (p : AVPacket) : Prop :=
  exists ret : Z, c = WriteFrame (f p) ret /\ 0 <= ret.


(** The order in which a muxer accepts calls: header attempts until one
    succeeds, then frames only.  [header_state hw l] follows the calls [l]
    from a context whose header is written or not according to [hw], and
    gives [None] when a call is out of order (a trailer counts as such). *)
Fixpoint header_state (hw : bool) (l : list av_call) : option bool :=
  match l with
  | [] => Some hw
  | WriteHeader ret :: rest =>
      if hw then None else header_state (0 <=? ret) rest
  | WriteFrame _ _ :: rest =>
      if hw then header_state true rest else None
  | WriteTrailer _ :: rest => None
  end.

(** What the two threads do to a recorder before [run_recorder] leaves its
    loop: the stream thread pushes a packet or asks to stop, the recorder
    thread makes one pass through its loop. *)
Inductive recorder_action : Type :=
| DoPush (packet : AVPacket)
| DoIterate
| DoClose.

(** One action; [None] when an assertion fails or the thread is blocked. *)
Definition recorder_step (lib : libav) (r : recorder) (a : recorder_action)
  : option recorder :=
  match a with
  | DoPush packet =>
      match recorder_push lib r packet with
      | Some (_, r') => Some r'
      | None => None
      end
  | DoIterate => iteration_state (run_recorder_iteration lib r)
  | DoClose => Some (recorder_close_request r)
  end.

Fixpoint recorder_steps (lib : libav) (r : recorder)
    (l : list recorder_action) : option recorder :=
  match l with
  | [] => Some r
  | a :: rest =>
      match recorder_step lib r a with
      | Some r' => recorder_steps lib r' rest
      | None => None
      end
  end.

(** What the recorder keeps true: the calls made on the output context are
    in the order a muxer accepts, [header_written] tells whether a header
    call succeeded, and a failed recorder has an empty queue. *)
Definition recorder_invariant (r : recorder) : Prop :=
  header_state false (calls (ctx r)) = Some (header_written r) /\
  (failed r = true -> queue r = []).

(** ** Sequences of operations on the video buffer *)

Inductive vb_operation : Type :=
| Offer (p : picture)   (* the producer offers a picture *)
| Take.                 (* the consumer takes the pending frame *)

(** One operation; [None] when an assertion fails. *)
Definition vb_step (vb : video_buffer) (op : vb_operation)
  : option video_buffer :=
  match op with
  | Offer p => offer_frame vb p
  | Take =>
      match video_buffer_consumer_take_frame vb with
      | Some (_, vb') => Some vb'
      | None => None
      end
  end.

Fixpoint vb_steps (vb : video_buffer) (ops : list vb_operation)
  : option video_buffer :=
  match ops with
  | [] => Some vb
  | op :: rest =>
      match vb_step vb op with
      | Some vb' => vb_steps vb' rest
      | None => None
      end
  end.

(** The pictures offered by a sequence of operations, in order. *)
Fixpoint offered (ops : list vb_operation) : list picture :=
  match ops with
  | [] => []
  | Offer p :: rest => p :: offered rest
  | Take :: rest => offered rest
  end.

(** The picture a slot holds, if any, and those of the three slots. *)
Definition slot (f : AVFrame) : list picture :=
  match f with Some p => [p] | None => [] end.

Definition held (vb : video_buffer) : list picture :=
  slot (producer_frame vb) ++ slot (pending_frame vb)
  ++ slot (consumer_frame vb).

(** The sequences of operations in which every take finds a frame that has
    not been taken yet; [consumed] is the flag before the sequence. *)
Fixpoint takes_allowed (consumed : bool) (ops : list vb_operation) : bool :=
  match ops with
  | [] => true
  | Offer _ :: rest => takes_allowed false rest
  | Take :: rest => negb consumed && takes_allowed true rest
  end.

(** ** What the parser makes of a payload *)

(** The packet [process_packet] hands to the recorder for [packet] when the
    received pts is [wire]. *)
Definition stamped (wire : Z) (packet : AVPacket) : AVPacket :=
  set_dts (set_pts packet (to_int64 wire)) (to_int64 wire).

(** The packets the parser makes of an input, in order: one for every call
    of the loop of [stream_parse] whose output is not empty, built as the
    loop builds it.  [n] is the number of parser calls made before. *)
Fixpoint parser_packets (env : stream_env) (fuel n : nat)
    (in_data : list byte) (in_len : Z) : list AVPacket :=
  if in_len =? 0 then []
  else
    match fuel with
    | O => []
    | S fuel' =>
        let res := av_parser_parse2 env n in_data in_len in
        let rest :=
          parser_packets env fuel' (S n)
                         (skipn (Z.to_nat (consumed res)) in_data)
                         (to_int32 (in_len - consumed res)) in
        if negb (out_len res =? 0) then
          (let packet := av_init_packet (out_data res) in
           if key_frame res =? 1
           then set_flags packet (Z.lor (flags packet) AV_PKT_FLAG_KEY)
           else packet) :: rest
        else rest
    end.

(** ** Parsers that make progress *)

(** A parser that, given a non-empty input, uses at least one byte of it
    and no more than it was given. *)
Definition parser_progresses (env : stream_env) : Prop :=
  forall (n : nat) (input : list byte) (len : Z),
    0 < len -> 0 < consumed (av_parser_parse2 env n input len) <= len.

(** ** Proof automation *)

(** Unfold the write policy; split on the conditions of the goal. *)
Ltac unfold_write :=
  unfold recorder_write, recorder_write_header, recorder_write_frame,
         pts_absent in *.

Ltac case_ifs :=
  repeat match goal with
         | |- context [if ?c then _ else _] => destruct c eqn:?
         end.

(** * Properties *)

(** ** Integers *)

Lemma to_int64_NO_PTS : to_int64 NO_PTS = -1.
Proof. reflexivity. Qed.

Lemma AV_NOPTS_VALUE_value : AV_NOPTS_VALUE = - 2 ^ 63.
Proof. reflexivity. Qed.

Lemma to_int64_small (z : Z) : in_int64 z -> to_int64 z = z.
Proof.
  unfold in_int64, to_int64. intros [Hlo Hhi].
  change (2 ^ 63) with 9223372036854775808 in *.
  change (2 ^ 64) with 18446744073709551616.
  rewrite Z.mod_small; lia.
Qed.

Lemma to_int64_range (z : Z) : in_int64 (to_int64 z).
Proof.
  unfold in_int64, to_int64.
  change (2 ^ 63) with 9223372036854775808.
  change (2 ^ 64) with 18446744073709551616.
  pose proof (Z.mod_pos_bound (z + 9223372036854775808) 18446744073709551616).
  lia.
Qed.

(** On [uint64_t] values the conversion to [int64_t] is injective. *)
Lemma to_int64_inj (a b : Z) :
  in_uint64 a -> in_uint64 b -> to_int64 a = to_int64 b -> a = b.
Proof.
  unfold in_uint64, to_int64.
  change (2 ^ 63) with 9223372036854775808.
  change (2 ^ 64) with 18446744073709551616.
  intros Ha Hb H.
  assert (Hm : (a + 9223372036854775808) mod 18446744073709551616
             = (b + 9223372036854775808) mod 18446744073709551616) by lia.
  clear H.
  destruct (Z_lt_ge_dec a 9223372036854775808) as [La | La];
    destruct (Z_lt_ge_dec b 9223372036854775808) as [Lb | Lb].
  - rewrite !Z.mod_small in Hm by lia. lia.
  - rewrite (Z.mod_small (a + _)) in Hm by lia.
    replace (b + 9223372036854775808)
      with (b - 9223372036854775808 + 1 * 18446744073709551616) in Hm by lia.
    rewrite Z.mod_add in Hm by lia. rewrite Z.mod_small in Hm by lia. lia.
  - rewrite (Z.mod_small (b + _)) in Hm by lia.
    replace (a + 9223372036854775808)
      with (a - 9223372036854775808 + 1 * 18446744073709551616) in Hm by lia.
    rewrite Z.mod_add in Hm by lia. rewrite Z.mod_small in Hm by lia. lia.
  - replace (a + 9223372036854775808)
      with (a - 9223372036854775808 + 1 * 18446744073709551616) in Hm by lia.
    replace (b + 9223372036854775808)
      with (b - 9223372036854775808 + 1 * 18446744073709551616) in Hm by lia.
    rewrite !Z.mod_add in Hm by lia. rewrite !Z.mod_small in Hm by lia. lia.
Qed.

(** ** Packets and the call log *)

Lemma firstn_size (p : AVPacket) :
  firstn (Z.to_nat (size p)) (data p) = data p.
Proof.
  unfold size. rewrite Nat2Z.id. apply firstn_all.
Qed.

Lemma frames_written_app (l1 l2 : list av_call) :
  frames_written (l1 ++ l2) = frames_written l1 ++ frames_written l2.
Proof.
  induction l1 as [| c l1 IH]; simpl; [reflexivity |].
  destruct c; simpl; rewrite IH; reflexivity.
Qed.

(** ** The write policy *)

(** [recorder_write] touches only the output context, [header_written] and
    the log. *)
Lemma recorder_write_frame_of_state (lib : libav) (r : recorder)
    (p : AVPacket) :
  let r' := snd (recorder_write lib r p) in
  failed r' = failed r /\ stopped r' = stopped r /\ queue r' = queue r /\
  previous r' = previous r /\ cond_signals r' = cond_signals r.
Proof.
  unfold_write. case_ifs; simpl; repeat split; reflexivity.
Qed.

(** Once the header is written, a timestamped packet goes to
    [av_write_frame] after rescaling, and nothing else happens. *)
Lemma recorder_write_timestamped (lib : libav) (r : recorder)
    (p : AVPacket) :
  header_written r = true ->
  pts_absent p = false ->
  let p' := av_packet_rescale_ts lib (ctx r) p in
  let ret := av_write_frame lib (ctx r) p' in
  recorder_write lib r p
  = (0 <=? ret, set_ctx r (ctx_call (ctx r) (WriteFrame p' ret))).
Proof.
  unfold_write. intros Hh Hp. rewrite Hh, Hp. reflexivity.
Qed.

(** C3, as amended.  While [header_written] is false, [recorder_write]
    fails on every packet whose pts is present, leaving the output context
    alone.  On a packet whose pts is absent it fails exactly when the
    allocation of the extradata buffer or [avformat_write_header] fails;
    when it succeeds the extradata is exactly the packet's bytes with
    exactly the packet's size, the header call has been made,
    [header_written] is true, and in no case has the packet been passed to
    [av_write_frame]. *)
Theorem recorder_write_first_packet (lib : libav) (r : recorder)
    (packet : AVPacket) :
  header_written r = false ->
  let c1 := mkCtx (Some (data packet)) (size packet) (calls (ctx r)) in
  let ret := avformat_write_header lib c1 in
  let res := recorder_write lib r packet in
  (pts_absent packet = false ->
     fst res = false /\ ctx (snd res) = ctx r /\
     header_written (snd res) = false) /\
  (pts_absent packet = true ->
     (fst res = false <->
        av_malloc_ok lib (ctx r) (size packet) = false \/ ret < 0) /\
     (fst res = true ->
        extradata (ctx (snd res)) = Some (data packet) /\
        extradata_size (ctx (snd res)) = Z.of_nat (length (data packet)) /\
        calls (ctx (snd res)) = calls (ctx r) ++ [WriteHeader ret] /\
        header_written (snd res) = true) /\
     (fst res = false -> header_written (snd res) = false)) /\
  frames_written (calls (ctx (snd res))) = frames_written (calls (ctx r)).
Proof.
  intros Hh c1 ret res. subst res ret c1.
  unfold_write. rewrite Hh. simpl negb. cbv iota.
  rewrite firstn_size.
  destruct (pts packet =? AV_NOPTS_VALUE) eqn:Hpts; simpl negb; cbv iota.
  - destruct (av_malloc_ok lib (ctx r) (size packet)) eqn:Hm; simpl.
    + destruct (avformat_write_header lib
                  (mkCtx (Some (data packet)) (size packet) (calls (ctx r)))
                <? 0) eqn:Hret; simpl.
      * apply Z.ltb_lt in Hret.
        split; [discriminate |]. split.
        { split; [| split]; try discriminate; auto.
          split; auto. }
        rewrite frames_written_app, app_nil_r. reflexivity.
      * apply Z.ltb_ge in Hret.
        split; [discriminate |]. split.
        { split; [| split]; try discriminate.
          - split; [discriminate | intros [Hc | Hc]; [discriminate | lia]].
          - intros _. unfold size. auto. }
        rewrite frames_written_app, app_nil_r. reflexivity.
    + split; [discriminate |]. split; [| reflexivity].
      split; [| split]; try discriminate; auto.
      split; auto.
  - split; [| split]; try discriminate; auto.
Qed.

(** C3, counterexample.  As specified, [recorder_write] would fail only
    when the pts is present.  Here the pts is absent and the header is not
    yet written, yet the call fails because the muxer refuses the header;
    [header_written] stays false. *)
Lemma recorder_write_fails_without_pts :
  header_written recorder_init = false /\
  pts_absent config_packet = true /\
  fst (recorder_write lib_header_fails recorder_init config_packet) = false /\
  header_written
    (snd (recorder_write lib_header_fails recorder_init config_packet))
  = false /\
  ~ (fst (recorder_write lib_header_fails recorder_init config_packet) = false
     <-> pts_absent config_packet = false).
Proof.
  repeat split; try reflexivity.
  intros [H _]. specialize (H eq_refl). discriminate H.
Qed.

Lemma recorder_write_first_packet_witness :
  fst (recorder_write lib_ok recorder_init config_packet) = true /\
  extradata (ctx (snd (recorder_write lib_ok recorder_init config_packet)))
  = Some config_bytes /\
  header_written (snd (recorder_write lib_ok recorder_init config_packet))
  = true.
Proof.
  pose proof (recorder_write_first_packet lib_ok recorder_init config_packet
                eq_refl) as H.
  destruct H as [_ [H _]].
  destruct (H eq_refl) as [_ [Hok _]].
  assert (Hfst : fst (recorder_write lib_ok recorder_init config_packet)
                 = true) by reflexivity.
  destruct (Hok Hfst) as [He [_ [_ Hw]]].
  split; [exact Hfst |]. split; [exact He | exact Hw].
Defined.

(** ** The recorder thread *)

(** C4.  When the recorder thread dequeues [rec] while [prev] sits in the
    carry slot, the packet it hands to the write policy is [prev] with its
    duration settled first: if both packets carry a timestamp the duration
    is [rec.pts - prev.pts] (the [int64_t] subtraction, which is the exact
    difference whenever that fits 64 bits); if either timestamp is absent
    the duration is the one [prev] already had.  With the header written and
    [prev] timestamped, that packet is the one passed to [av_write_frame]. *)
Theorem run_recorder_sets_previous_duration (lib : libav) (r : recorder)
    (rec prev : AVPacket) (rest : list AVPacket) :
  queue r = rec :: rest ->
  previous r = Some prev ->
  exists written : AVPacket,
    (data written = data prev /\ pts written = pts prev /\
     dts written = dts prev /\ flags written = flags prev) /\
    (pts_absent rec = false -> pts_absent prev = false ->
       duration written = sub64 (pts rec) (pts prev) /\
       (in_int64 (pts rec - pts prev) ->
          duration written = pts rec - pts prev)) /\
    (pts_absent rec = true \/ pts_absent prev = true ->
       duration written = duration prev) /\
    let r2 := set_previous (set_queue r rest) (Some rec) in
    let w := recorder_write lib r2 written in
    run_recorder_iteration lib r
    = (if fst w then Continue (snd w)
       else Break (recorder_queue_clear
                     (set_failed (log (snd w) LOGE "Could not record packet")
                                 true))) /\
    (header_written r = true -> pts_absent prev = false ->
       let sent := av_packet_rescale_ts lib (ctx r) written in
       calls (ctx (snd w))
       = calls (ctx r) ++ [WriteFrame sent (av_write_frame lib (ctx r) sent)]).
Proof.
  intros Hq Hp.
  exists (if negb (pts rec =? AV_NOPTS_VALUE)
             && negb (pts prev =? AV_NOPTS_VALUE)
          then set_duration prev (sub64 (pts rec) (pts prev))
          else prev).
  unfold pts_absent.
  split; [| split; [| split; [| split]]].
  - destruct (negb (pts rec =? AV_NOPTS_VALUE)
              && negb (pts prev =? AV_NOPTS_VALUE));
      repeat split; reflexivity.
  - intros Hr Hv. rewrite Hr, Hv. simpl. split; [reflexivity |].
    intros Hfit. unfold sub64. apply to_int64_small. exact Hfit.
  - intros [Hr | Hv].
    + rewrite Hr. reflexivity.
    + rewrite Hv, andb_false_r. reflexivity.
  - unfold run_recorder_iteration. rewrite Hq. simpl queue_is_empty.
    rewrite !andb_false_r. cbv iota. simpl previous. rewrite Hp.
    destruct (recorder_write lib (set_previous (set_queue r rest) (Some rec))
                (if negb (pts rec =? AV_NOPTS_VALUE)
                    && negb (pts prev =? AV_NOPTS_VALUE)
                 then set_duration prev (sub64 (pts rec) (pts prev))
                 else prev)) as [ok r3].
    destruct ok; reflexivity.
  - intros Hh Hv. cbv zeta.
    rewrite recorder_write_timestamped.
    + reflexivity.
    + exact Hh.
    + unfold pts_absent.
      destruct (negb (pts rec =? AV_NOPTS_VALUE)
                && negb (pts prev =? AV_NOPTS_VALUE)); exact Hv.
Qed.

Lemma run_recorder_sets_previous_duration_witness :
  exists written : AVPacket,
    pts written = 1000000 /\ duration written = 40000 /\
    run_recorder_iteration lib_ok recorder_S2_second_frame
    = (let w := recorder_write lib_ok
                  (set_previous (set_queue recorder_S2_second_frame [])
                                (Some (frame_packet 1040000)))
                  written in
       if fst w then Continue (snd w)
       else Break (recorder_queue_clear
                     (set_failed (log (snd w) LOGE "Could not record packet")
                                 true))).
Proof.
  destruct (run_recorder_sets_previous_duration lib_ok
              recorder_S2_second_frame (frame_packet 1040000)
              (frame_packet 1000000) [] eq_refl eq_refl)
    as [written [[_ [Hpts _]] [Hd [_ [Hrun _]]]]].
  exists written. split; [exact Hpts |]. split.
  - destruct (Hd eq_refl eq_refl) as [_ Hexact].
    apply Hexact. unfold in_int64. simpl. lia.
  - exact Hrun.
Defined.

(** C5.  When the thread finds [stopped] set, the queue empty and a packet
    in the carry slot, it leaves the loop after passing that packet, with
    duration 100000, to the write policy.  Whatever the write returns, the
    [failed] flag keeps its value; a failed write only adds a warning to the
    log.  With the header written and the packet timestamped, the frame
    passed to [av_write_frame] is that packet, rescaled. *)
Theorem run_recorder_drains_last_packet (lib : libav) (r : recorder)
    (last : AVPacket) :
  stopped r = true ->
  queue r = [] ->
  previous r = Some last ->
  let w := recorder_write lib r (set_duration last 100000) in
  exists r' : recorder,
    run_recorder_iteration lib r = Break r' /\
    duration (set_duration last 100000) = 100000 /\
    ctx r' = ctx (snd w) /\
    header_written r' = header_written (snd w) /\
    failed r' = failed r /\
    (fst w = true -> r' = snd w) /\
    (fst w = false ->
       logs r'
       = logs (snd w) ++ [(LOGW, "Could not record last packet"%string)]) /\
    (header_written r = true -> pts_absent last = false ->
       frames_written (calls (ctx r'))
       = frames_written (calls (ctx r))
         ++ [av_packet_rescale_ts lib (ctx r) (set_duration last 100000)]).
Proof.
  intros Hs Hq Hp w.
  assert (Hkeep : failed (snd w) = failed r)
    by apply recorder_write_frame_of_state.
  assert (Hframe : header_written r = true -> pts_absent last = false ->
            frames_written (calls (ctx (snd w)))
            = frames_written (calls (ctx r))
              ++ [av_packet_rescale_ts lib (ctx r)
                    (set_duration last 100000)]).
  { intros Hh Hl. subst w.
    rewrite recorder_write_timestamped by assumption.
    simpl. rewrite frames_written_app. reflexivity. }
  unfold run_recorder_iteration. rewrite Hs, Hq, Hp. simpl.
  fold w. destruct w as [ok r1] eqn:Hw. simpl in *.
  destruct ok; simpl.
  - exists r1. repeat split; auto. discriminate.
  - exists (log r1 LOGW "Could not record last packet").
    repeat split; auto. discriminate.
Qed.

Lemma run_recorder_drains_last_packet_witness :
  exists r' : recorder,
    run_recorder_iteration lib_ok recorder_S1_stopped = Break r' /\
    failed r' = false /\
    frames_written (calls (ctx r'))
    = [set_duration (frame_packet 1000000) 100000].
Proof.
  destruct (run_recorder_drains_last_packet lib_ok recorder_S1_stopped
              (frame_packet 1000000) eq_refl eq_refl eq_refl)
    as [r' [Hrun [_ [_ [_ [Hf [_ [_ Hfr]]]]]]]].
  exists r'. split; [exact Hrun |]. split; [exact Hf |].
  exact (Hfr eq_refl eq_refl).
Defined.

(** C6.  After the loop, with [failed] false: if the header was written the
    trailer is written, and [failed] becomes true exactly when that call
    returns a negative code; if the header was not written, [failed] is set
    and the trailer is not written. *)
Theorem run_recorder_finish_trailer (lib : libav) (r : recorder) :
  failed r = false ->
  let r' := run_recorder_finish lib r in
  let ret := av_write_trailer lib (ctx r) in
  (header_written r = true ->
     calls (ctx r') = calls (ctx r) ++ [WriteTrailer ret] /\
     (failed r' = true <-> ret < 0)) /\
  (header_written r = false ->
     failed r' = true /\ calls (ctx r') = calls (ctx r)).
Proof.
  intros Hf r' ret. subst r' ret. unfold run_recorder_finish.
  rewrite Hf. simpl negb. cbv iota.
  split; intros Hh; rewrite Hh.
  - destruct (av_write_trailer lib (ctx r) <? 0) eqn:Hret; simpl.
    + apply Z.ltb_lt in Hret. split; [reflexivity |]. split; auto.
    + apply Z.ltb_ge in Hret. rewrite Hf. simpl. rewrite Hf.
      split; [reflexivity |]. split; [discriminate | lia].
  - simpl. split; reflexivity.
Qed.

Lemma run_recorder_finish_trailer_witness :
  calls (ctx (run_recorder_finish lib_ok recorder_after_header))
  = [WriteHeader 0; WriteTrailer 0] /\
  failed (run_recorder_finish lib_ok recorder_init) = true.
Proof.
  split.
  - exact (proj1 (proj1 (run_recorder_finish_trailer lib_ok
                           recorder_after_header eq_refl) eq_refl)).
  - exact (proj1 (proj2 (run_recorder_finish_trailer lib_ok
                           recorder_init eq_refl) eq_refl)).
Defined.

(** A failed recorder is left alone by the code after the loop, apart from
    the log. *)
Lemma run_recorder_finish_failed (lib : libav) (r : recorder) :
  failed r = true ->
  failed (run_recorder_finish lib r) = true /\
  ctx (run_recorder_finish lib r) = ctx r.
Proof.
  intros Hf. unfold run_recorder_finish. rewrite Hf. simpl.
  rewrite Hf. simpl. split; [exact Hf | reflexivity].
Qed.

(** Once the stop request is in, the loop leaves after at most one pass per
    queued packet and one more. *)
Lemma run_recorder_loop_exits (lib : libav) (q : list AVPacket) :
  forall r : recorder,
    stopped r = true -> queue r = q ->
    exists r', run_recorder_loop lib (S (length q)) r = Exited r'.
Proof.
  induction q as [| rec rest IH]; intros r Hs Hq.
  - simpl. unfold run_recorder_iteration. rewrite Hs, Hq. simpl.
    destruct (previous r) as [last |]; [| eauto].
    destruct (recorder_write lib r (set_duration last 100000)) as [ok r1].
    destruct ok; simpl; eauto.
  - cbn [length run_recorder_loop].
    unfold run_recorder_iteration. rewrite Hs, Hq. simpl.
    destruct (previous r) as [prev |].
    + match goal with
      | |- context [recorder_write lib ?a ?b] =>
          pose proof (recorder_write_frame_of_state lib a b) as Hk;
          destruct (recorder_write lib a b) as [ok r3]
      end.
      simpl in Hk. destruct Hk as [_ [Hs3 [Hq3 _]]].
      destruct ok; simpl; [| eauto].
      apply IH; [rewrite Hs3; exact Hs | exact Hq3].
    + apply IH; [exact Hs | reflexivity].
Qed.

(** X1.  Once the stop request is in, [run_recorder] returns: one pass of
    its loop per queued packet and one more are enough, whatever the muxer
    answers. *)
Lemma run_recorder_returns (lib : libav) (r : recorder) :
  stopped r = true ->
  exists r', run_recorder lib (S (length (queue r))) r = Exited r'.
Proof.
  intros Hs.
  destruct (run_recorder_loop_exits lib (queue r) r Hs eq_refl) as [r' H].
  unfold run_recorder. rewrite H. eauto.
Qed.

(** ** Pushing packets *)

(** [record_packet_new] returns NULL exactly when one of its two allocating
    calls fails; otherwise the record holds the packet as it was given. *)
Lemma record_packet_new_spec (lib : libav) (q : list AVPacket)
    (packet : AVPacket) :
  (record_packet_new lib q packet = None <->
     malloc_ok lib q = false \/ av_packet_ref lib packet <> 0) /\
  (forall rec, record_packet_new lib q packet = Some rec -> rec = packet).
Proof.
  unfold record_packet_new.
  destruct (malloc_ok lib q); simpl.
  - destruct (av_packet_ref lib packet =? 0) eqn:Href; simpl.
    + apply Z.eqb_eq in Href. split.
      * split; [discriminate | intros [H | H]; [discriminate | lia]].
      * intros rec H. inversion H. reflexivity.
    + apply Z.eqb_neq in Href. split.
      * split; auto.
      * discriminate.
  - split; [split; auto | discriminate].
Qed.

(** C7.  Before the stop request, [recorder_push] returns; it returns false
    exactly when [failed] is already set or the duplicate record cannot be
    allocated, that is when [malloc] gives NULL or [av_packet_ref] gives a
    non-zero code.  When it returns true the queue is the old queue followed
    by the packet, the condition variable has been signalled once, and
    nothing else in the recorder has changed; when it returns false the
    queue and the condition variable are untouched. *)
Theorem recorder_push_result (lib : libav) (r : recorder)
    (packet : AVPacket) :
  stopped r = false ->
  exists (ok : bool) (r' : recorder),
    recorder_push lib r packet = Some (ok, r') /\
    (ok = false <->
       failed r = true \/ malloc_ok lib (queue r) = false \/
       av_packet_ref lib packet <> 0) /\
    (ok = true ->
       queue r' = queue r ++ [packet] /\
       cond_signals r' = S (cond_signals r) /\
       ctx r' = ctx r /\ header_written r' = header_written r /\
       stopped r' = stopped r /\ failed r' = failed r /\
       previous r' = previous r /\ logs r' = logs r) /\
    (ok = false ->
       queue r' = queue r /\ cond_signals r' = cond_signals r).
Proof.
  intros Hs. unfold recorder_push. rewrite Hs.
  destruct (failed r) eqn:Hf.
  - exists false, r. repeat split; auto; discriminate.
  - pose proof (record_packet_new_spec lib (queue r) packet) as [Hnone Hsome].
    destruct (record_packet_new lib (queue r) packet) as [rec |] eqn:Hnew.
    + specialize (Hsome rec eq_refl). subst rec.
      exists true, (sc_cond_signal (set_queue r (queue r ++ [packet]))).
      repeat split; auto; try discriminate.
      intros [H | H]; [discriminate |].
      apply Hnone in H. discriminate.
    + exists false, (log r LOGC "Could not allocate record packet").
      repeat split; auto; try discriminate.
      intros _. right. apply Hnone. reflexivity.
Qed.

Lemma recorder_push_result_witness :
  (exists r' : recorder,
     recorder_push lib_ok recorder_init config_packet = Some (true, r') /\
     queue r' = [config_packet]) /\
  (exists r' : recorder,
     recorder_push lib_no_memory recorder_init config_packet
     = Some (false, r') /\
     queue r' = []).
Proof.
  split.
  - destruct (recorder_push_result lib_ok recorder_init config_packet
                eq_refl) as [ok [r' [Hpush [Hfalse [Htrue _]]]]].
    destruct ok.
    + exists r'. split; [exact Hpush |]. exact (proj1 (Htrue eq_refl)).
    + exfalso. destruct (proj1 Hfalse eq_refl) as [H | [H | H]];
        [discriminate H | discriminate H | apply H; reflexivity].
  - destruct (recorder_push_result lib_no_memory recorder_init config_packet
                eq_refl) as [ok [r' [Hpush [Hfalse [_ Hkeep]]]]].
    destruct ok.
    + exfalso.
      assert (Hno : true = false)
        by (apply (proj2 Hfalse); right; left; reflexivity).
      discriminate Hno.
    + exists r'. split; [exact Hpush |]. exact (proj1 (Hkeep eq_refl)).
Defined.

(** ** Scenarios of the specification, on the recorder *)

(** S1: a config packet and one frame; the frame is written with duration
    100000 and the trailer follows. *)
Example scenario_S1_recorder :
  calls_of (record_all lib_ok [config_packet; frame_packet 1000000])
  = [WriteHeader 0;
     WriteFrame (set_duration (frame_packet 1000000) 100000) 0;
     WriteTrailer 0] /\
  failed_of (record_all lib_ok [config_packet; frame_packet 1000000]) = false.
Proof. split; reflexivity. Qed.

(** S2: two frames 40 ms apart. *)
Example scenario_S2_recorder :
  frames_written
    (calls_of (record_all lib_ok [config_packet; frame_packet 1000000;
                                  frame_packet 1040000]))
  = [set_duration (frame_packet 1000000) 40000;
     set_duration (frame_packet 1040000) 100000].
Proof. reflexivity. Qed.

(** S4: the first packet carries a timestamp; the recording fails and
    nothing is written. *)
Example scenario_S4_recorder :
  calls_of (record_all lib_ok [frame_packet 1000000; frame_packet 1040000])
  = [] /\
  failed_of (record_all lib_ok [frame_packet 1000000; frame_packet 1040000])
  = true.
Proof. split; reflexivity. Qed.

(** A failed write of the last packet does not fail the recording. *)
Example last_write_failure_is_not_fatal :
  failed_of (record_all lib_frame_fails [config_packet; frame_packet 1000000])
  = false.
Proof. reflexivity. Qed.

(** ** Video buffer *)

Lemma skipn_length_app {A : Type} (l l' : list A) :
  skipn (length l) (l ++ l') = l'.
Proof. induction l as [| x l IH]; simpl; auto. Qed.

(** The fixtures are states the code reaches. *)
Lemma vb_registered_reached :
  video_buffer_set_consumer_callbacks (video_buffer_init 0) cbs_both 7
  = Some vb_registered.
Proof. reflexivity. Qed.

Lemma vb_unconsumed_no_skipped_reached :
  exists vb0,
    video_buffer_set_consumer_callbacks (video_buffer_init 0) cbs_no_skipped 7
    = Some vb0 /\
    offer_frame vb0 1%N = Some vb_unconsumed_no_skipped.
Proof. eexists. split; reflexivity. Qed.

(** Registration is only accepted with an [on_frame_available] entry, and
    neither offering nor taking a frame changes the callbacks. *)
Lemma set_consumer_callbacks_registers (vb vb' : video_buffer)
    (c : video_buffer_callbacks) (u : Z) :
  video_buffer_set_consumer_callbacks vb c u = Some vb' ->
  cbs vb' = Some c /\ on_frame_available c = true.
Proof.
  unfold video_buffer_set_consumer_callbacks.
  destruct (cbs vb); [discriminate |].
  destruct (on_frame_available c); simpl; [| discriminate].
  intros H. inversion H. simpl. auto.
Qed.

Lemma offer_frame_keeps_callbacks (vb vb' : video_buffer) :
  video_buffer_producer_offer_frame vb = Some vb' -> cbs vb' = cbs vb.
Proof.
  unfold video_buffer_producer_offer_frame.
  destruct (cbs vb) as [c |] eqn:Hc; [| discriminate].
  simpl. destruct (pending_frame_consumed vb); simpl.
  - destruct (on_frame_available c); [| discriminate].
    intros H. inversion H. simpl. auto.
  - destruct (on_frame_skipped c); intros H; inversion H; simpl; auto.
Qed.

Lemma take_frame_keeps_callbacks (vb vb' : video_buffer) (f : AVFrame) :
  video_buffer_consumer_take_frame vb = Some (f, vb') -> cbs vb' = cbs vb.
Proof.
  unfold video_buffer_consumer_take_frame.
  destruct (pending_frame_consumed vb); [discriminate |].
  intros H. inversion H. reflexivity.
Qed.

(** C8, as amended.  An offer made after the callbacks are registered calls
    at most one callback.  It calls [on_frame_available], once, exactly when
    [pending_frame_consumed] was true on entry.  It calls
    [on_frame_skipped], once, exactly when [pending_frame_consumed] was
    false on entry and the consumer registered that entry; so exactly one
    callback is called whenever [on_frame_skipped] is registered. *)
Theorem offer_frame_callbacks (vb : video_buffer)
    (c : video_buffer_callbacks) :
  cbs vb = Some c ->
  on_frame_available c = true ->
  exists vb' : video_buffer,
    video_buffer_producer_offer_frame vb = Some vb' /\
    let l := invoked_since vb vb' in
    invoked vb' = invoked vb ++ l /\
    (count_available l + count_skipped l <= 1)%nat /\
    (count_available l = 1%nat <-> pending_frame_consumed vb = true) /\
    (count_skipped l = 1%nat <->
       pending_frame_consumed vb = false /\ on_frame_skipped c = true) /\
    (on_frame_skipped c = true ->
       (count_available l + count_skipped l = 1)%nat).
Proof.
  intros Hc Ha. unfold video_buffer_producer_offer_frame.
  rewrite Hc, Ha. simpl.
  destruct (pending_frame_consumed vb) eqn:Hp; simpl.
  - eexists. split; [reflexivity |].
    unfold invoked_since. simpl. rewrite skipn_length_app. simpl.
    repeat split; auto; try discriminate; try lia.
  - destruct (on_frame_skipped c) eqn:Hk.
    + eexists. split; [reflexivity |].
      unfold invoked_since. simpl. rewrite skipn_length_app. simpl.
      repeat split; auto; try discriminate; try lia.
    + eexists. split; [reflexivity |].
      unfold invoked_since. simpl.
      rewrite skipn_all. simpl. rewrite app_nil_r.
      repeat split; auto; try discriminate; try lia.
Qed.

(** C8, counterexample.  The consumer registered no [on_frame_skipped] and
    has not taken the pending frame; the next offer calls neither callback,
    so it is not the case that exactly one of them is called. *)
Lemma offer_frame_may_call_nothing :
  cbs vb_unconsumed_no_skipped = Some cbs_no_skipped /\
  pending_frame_consumed vb_unconsumed_no_skipped = false /\
  exists vb' : video_buffer,
    offer_frame vb_unconsumed_no_skipped 2%N = Some vb' /\
    invoked vb' = invoked vb_unconsumed_no_skipped /\
    count_available (invoked_since vb_unconsumed_no_skipped vb') = 0%nat /\
    count_skipped (invoked_since vb_unconsumed_no_skipped vb') = 0%nat.
Proof.
  split; [reflexivity |]. split; [reflexivity |].
  eexists. split; [reflexivity |]. repeat split; reflexivity.
Qed.

Lemma offer_frame_callbacks_witness :
  exists vb' : video_buffer,
    video_buffer_producer_offer_frame (producer_store vb_registered 1%N)
    = Some vb' /\
    count_available
      (invoked_since (producer_store vb_registered 1%N) vb') = 1%nat.
Proof.
  destruct (offer_frame_callbacks (producer_store vb_registered 1%N)
              cbs_both eq_refl eq_refl)
    as [vb' [Hoffer [_ [_ [Hav _]]]]].
  exists vb'. split; [exact Hoffer |]. exact (proj2 Hav eq_refl).
Defined.

(** What an offer does to the slots: the offered picture is pending and
    not consumed, the producer slot is blank, the consumer slot is left
    alone, and the picture that was pending, if any, is released. *)
Lemma offer_frame_slots (vb : video_buffer) (c : video_buffer_callbacks)
    (p : picture) :
  cbs vb = Some c ->
  on_frame_available c = true ->
  exists vb' : video_buffer,
    offer_frame vb p = Some vb' /\
    pending_frame vb' = Some p /\
    producer_frame vb' = None /\
    consumer_frame vb' = consumer_frame vb /\
    pending_frame_consumed vb' = false /\
    cbs vb' = Some c /\
    released vb'
    = released vb ++ match pending_frame vb with
                     | Some q => [q]
                     | None => []
                     end.
Proof.
  intros Hc Ha.
  unfold offer_frame, video_buffer_producer_offer_frame.
  simpl. rewrite Hc, Ha.
  assert (Hrel : match pending_frame vb with
                 | Some q => released vb ++ [q]
                 | None => released vb
                 end
                 = released vb ++ match pending_frame vb with
                                  | Some q => [q]
                                  | None => []
                                  end).
  { destruct (pending_frame vb); [reflexivity | now rewrite app_nil_r]. }
  destruct (pending_frame_consumed vb); simpl.
  - eexists. split; [reflexivity |]. simpl. repeat split; auto.
  - destruct (on_frame_skipped c).
    + eexists. split; [reflexivity |]. simpl. repeat split; auto.
    + eexists. split; [reflexivity |]. simpl. repeat split; auto.
Qed.

(** C9.  Offer picture [a], then picture [b], with no take in between: the
    second offer drops [a] from the pending slot, and the next take returns
    [b].  After the take no slot but the consumer's holds a picture. *)
Theorem take_frame_returns_latest_offer (vb : video_buffer)
    (c : video_buffer_callbacks) (a b : picture) :
  cbs vb = Some c ->
  on_frame_available c = true ->
  exists vb1 vb2 vb3 : video_buffer,
    offer_frame vb a = Some vb1 /\
    offer_frame vb1 b = Some vb2 /\
    video_buffer_consumer_take_frame vb2 = Some (Some b, vb3) /\
    pending_frame vb1 = Some a /\
    released vb2 = released vb1 ++ [a] /\
    pending_frame vb2 = Some b /\
    producer_frame vb2 = None /\
    consumer_frame vb2 = consumer_frame vb /\
    consumer_frame vb3 = Some b /\
    pending_frame vb3 = None /\
    producer_frame vb3 = None.
Proof.
  intros Hc Ha.
  destruct (offer_frame_slots vb c a Hc Ha)
    as [vb1 [H1 [Hpend1 [_ [Hcons1 [_ [Hc1 _]]]]]]].
  destruct (offer_frame_slots vb1 c b Hc1 Ha)
    as [vb2 [H2 [Hpend2 [Hprod2 [Hcons2 [Hflag2 [_ Hrel2]]]]]]].
  rewrite Hpend1 in Hrel2.
  exists vb1, vb2.
  unfold video_buffer_consumer_take_frame. rewrite Hflag2.
  eexists. split; [exact H1 |]. split; [exact H2 |].
  split; [simpl; rewrite Hpend2; reflexivity |].
  simpl. rewrite Hpend2, Hprod2, Hcons2, Hcons1.
  repeat split; auto.
Qed.

Lemma take_frame_returns_latest_offer_witness :
  exists vb1 vb2 vb3 : video_buffer,
    offer_frame vb_registered 1%N = Some vb1 /\
    offer_frame vb1 2%N = Some vb2 /\
    video_buffer_consumer_take_frame vb2 = Some (Some 2%N, vb3) /\
    released vb2 = released vb1 ++ [1%N].
Proof.
  destruct (take_frame_returns_latest_offer vb_registered cbs_both 1%N 2%N
              eq_refl eq_refl)
    as [vb1 [vb2 [vb3 [H1 [H2 [H3 [_ [Hrel _]]]]]]]].
  exists vb1, vb2, vb3. repeat split; assumption.
Defined.

(** Scenario S3 of the specification: two offers without a take call
    [on_frame_available] once and [on_frame_skipped] once, in that order,
    and the take that follows yields the second picture. *)
Example scenario_S3 :
  exists vb1 vb2 vb3 : video_buffer,
    offer_frame vb_registered 1%N = Some vb1 /\
    offer_frame vb1 2%N = Some vb2 /\
    invoked vb2 = [OnFrameAvailable 7; OnFrameSkipped 7] /\
    released vb2 = [1%N] /\
    video_buffer_consumer_take_frame vb2 = Some (Some 2%N, vb3).
Proof. do 3 eexists. repeat split; reflexivity. Qed.

(** ** Stream engine *)

Lemma byte_val_range (b : byte) : 0 <= byte_val b < 256.
Proof.
  unfold byte_val. pose proof (Byte.to_N_bounded b). lia.
Qed.

Lemma read_be_range (bs : list byte) :
  forall acc : Z,
    0 <= acc ->
    0 <= read_be acc bs < (acc + 1) * 256 ^ Z.of_nat (length bs).
Proof.
  induction bs as [| b rest IH]; intros acc Hacc.
  - simpl. lia.
  - cbn [read_be length]. rewrite Nat2Z.inj_succ, Z.pow_succ_r by lia.
    pose proof (byte_val_range b) as Hb.
    assert (H0 : 0 <= acc * 256 + byte_val b) by lia.
    specialize (IH _ H0).
    assert (Hp : 0 < 256 ^ Z.of_nat (length rest))
      by (apply Z.pow_pos_nonneg; lia).
    nia.
Qed.

(** The pts read from a meta-header is a [uint64_t]. *)
Lemma buffer_read64be_range (buf : list byte) : in_uint64 (buffer_read64be buf).
Proof.
  unfold in_uint64, buffer_read64be.
  pose proof (read_be_range (firstn 8 buf) 0 ltac:(lia)) as H.
  assert (Hl : (length (firstn 8 buf) <= 8)%nat) by apply firstn_le_length.
  assert (Hp : 256 ^ Z.of_nat (length (firstn 8 buf)) <= 256 ^ 8)
    by (apply Z.pow_le_mono_r; lia).
  change (256 ^ 8) with (2 ^ 64) in Hp. lia.
Qed.

(** The encoders of the fixtures agree with the readers. *)
Example wire_item_header :
  buffer_read64be (wire_item 1000000 frame_bytes) = 1000000 /\
  buffer_read32be (skipn 8 (wire_item 1000000 frame_bytes)) = 5 /\
  buffer_read64be (wire_item NO_PTS config_bytes) = 2 ^ 64 - 1.
Proof. repeat split; reflexivity. Qed.

(** [process_packet] never touches the received pts; what it hands to the
    recorder carries that pts, converted, as pts and as dts. *)
Lemma process_packet_delivered (lib : libav) (env : stream_env) (s : stream)
    (packet : AVPacket) :
  let s' := snd (process_packet lib env s packet) in
  receiver_state_pts s' = receiver_state_pts s /\
  exists l : list AVPacket,
    delivered s' = delivered s ++ l /\
    Forall (fun p => pts p = to_int64 (receiver_state_pts s) /\
                     dts p = to_int64 (receiver_state_pts s)) l.
Proof.
  unfold process_packet.
  destruct (stream_decoder s && negb (decoder_push env packet)); simpl.
  - split; [reflexivity |]. exists []. rewrite app_nil_r. auto.
  - destruct (stream_recorder s) as [r |]; simpl.
    + destruct (recorder_write lib r _) as [ok r']. destruct ok; simpl.
      * split; [reflexivity |]. eexists. split; [reflexivity |].
        constructor; [split; reflexivity | constructor].
      * split; [reflexivity |]. eexists. split; [reflexivity |].
        constructor; [split; reflexivity | constructor].
    + split; [reflexivity |]. exists []. rewrite app_nil_r. auto.
Qed.

(** X9.  [process_packet] never queues anything: whatever the packet and
    the outcome, the attached recorder is still attached and its queue and
    condition variable are as they were. *)
Lemma process_packet_never_enqueues (lib : libav) (env : stream_env)
    (s : stream) (packet : AVPacket) (r : recorder) :
  stream_recorder s = Some r ->
  exists r' : recorder,
    stream_recorder (snd (process_packet lib env s packet)) = Some r' /\
    queue r' = queue r /\ cond_signals r' = cond_signals r.
Proof.
  intros Hr. unfold process_packet.
  destruct (stream_decoder s && negb (decoder_push env packet)); simpl.
  - exists r. auto.
  - rewrite Hr.
    match goal with
    | |- context [recorder_write lib r ?p] =>
        pose proof (recorder_write_frame_of_state lib r p) as Hk;
        destruct (recorder_write lib r p) as [ok r']
    end.
    simpl in Hk. destruct Hk as [_ [_ [Hq [_ Hs]]]].
    exists r'. destruct ok; simpl; auto.
Qed.

Lemma stream_parse_loop_delivered (lib : libav) (env : stream_env)
    (fuel : nat) :
  forall (s : stream) (in_data : list byte) (in_len : Z) (b : bool)
         (s' : stream),
    stream_parse_loop lib env fuel s in_data in_len = Ok (b, s') ->
    receiver_state_pts s' = receiver_state_pts s /\
    exists l : list AVPacket,
      delivered s' = delivered s ++ l /\
      Forall (fun p => pts p = to_int64 (receiver_state_pts s)) l.
Proof.
  induction fuel as [| fuel IH]; intros s in_data in_len b s' H.
  - simpl in H. destruct (in_len =? 0); [| discriminate].
    inversion H; subst. split; [reflexivity |].
    exists []. rewrite app_nil_r. auto.
  - cbn [stream_parse_loop] in H.
    destruct (in_len =? 0).
    { inversion H; subst. split; [reflexivity |].
      exists []. rewrite app_nil_r. auto. }
    cbv zeta in H.
    destruct (negb (out_len (av_parser_parse2 env (parser_calls s) in_data
                                              in_len)
                    =? 0)).
    + match type of H with
      | context [process_packet lib env ?a ?p] =>
          pose proof (process_packet_delivered lib env a p) as Hd;
          destruct (process_packet lib env a p) as [ok s2]
      end.
      simpl in Hd. destruct Hd as [Hpts [l1 [Hl1 Hall1]]].
      destruct ok; simpl in H.
      * apply IH in H. destruct H as [Hpts' [l2 [Hl2 Hall2]]].
        split; [congruence |].
        exists (l1 ++ l2). rewrite Hl2, Hl1, app_assoc.
        split; [reflexivity |].
        apply Forall_app. split.
        -- eapply Forall_impl; [| exact Hall1]. simpl. intros p [Hp _]. exact Hp.
        -- rewrite Hpts in Hall2. exact Hall2.
      * inversion H; subst. simpl. split; [exact Hpts |].
        exists l1. split; [exact Hl1 |].
        eapply Forall_impl; [| exact Hall1]. simpl. intros p [Hp _]. exact Hp.
    + apply IH in H. simpl in H. exact H.
Qed.

(** Whatever the socket delivers, no packet carrying the sentinel reaches
    the recorder: [stream_parse] hands packets over only when the received
    pts is not [NO_PTS]. *)
Lemma stream_parse_delivers_no_config (lib : libav) (env : stream_env)
    (fuel : nat) (s s' : stream) (payload : list byte) (b : bool) :
  in_uint64 (receiver_state_pts s) ->
  stream_parse lib env fuel s payload = Ok (b, s') ->
  exists l : list AVPacket,
    delivered s' = delivered s ++ l /\
    Forall (fun p => carries_no_pts p = false) l.
Proof.
  intros Hu. unfold stream_parse.
  destruct (sdl_assert_enabled env && (receiver_state_pts s =? NO_PTS));
    [discriminate |].
  destruct (receiver_state_pts s =? NO_PTS) eqn:Hno; simpl.
  - intros H. inversion H; subst. exists []. rewrite app_nil_r. auto.
  - intros H. apply stream_parse_loop_delivered in H.
    destruct H as [_ [l [Hl Hall]]]. exists l. split; [exact Hl |].
    eapply Forall_impl; [| exact Hall]. simpl. intros p Hp.
    unfold carries_no_pts. rewrite Hp. apply Z.eqb_neq. intros Heq.
    apply Z.eqb_neq in Hno. apply Hno.
    apply to_int64_inj; [exact Hu | | exact Heq].
    unfold in_uint64. vm_compute. split; [discriminate | reflexivity].
Qed.

Lemma stream_recv_packet_state (env : stream_env) (s s1 : stream)
    (ok : bool) (payload : list byte) :
  stream_recv_packet env s = Ok (ok, payload, s1) ->
  delivered s1 = delivered s /\
  (ok = true -> in_uint64 (receiver_state_pts s1)).
Proof.
  unfold stream_recv_packet, net_recv_all.
  destruct (Z.of_nat (length (firstn (Z.to_nat HEADER_SIZE) (socket s)))
            <? HEADER_SIZE).
  { intros H. inversion H; subst. split; [reflexivity | discriminate]. }
  destruct (sdl_assert_enabled env && _); [discriminate |].
  destruct (negb (av_malloc_packet_ok env _)).
  { intros H. inversion H; subst. split; [reflexivity | discriminate]. }
  simpl.
  destruct (Z.of_nat (length _) <? _); intros H; inversion H; subst; simpl.
  - split; [reflexivity | discriminate].
  - split; [reflexivity |]. intros _. apply buffer_read64be_range.
Qed.

(** X7.  In every run of the stream loop that returns, whatever the socket
    delivers and whatever the parser and the sinks answer, none of the
    packets handed to the recorder carries the sentinel [NO_PTS]. *)
Lemma run_stream_loop_delivers_no_config (lib : libav) (env : stream_env)
    (fuel : nat) :
  forall s s' : stream,
    run_stream_loop lib env fuel s = Ok s' ->
    exists l : list AVPacket,
      delivered s' = delivered s ++ l /\
      Forall (fun p => carries_no_pts p = false) l.
Proof.
  induction fuel as [| fuel IH]; intros s s' H; [discriminate |].
  cbn [run_stream_loop] in H.
  destruct (stream_recv_packet env s) as [[[ok payload] s1] | |] eqn:Hrecv;
    try discriminate.
  apply stream_recv_packet_state in Hrecv. destruct Hrecv as [Hd Hu].
  destruct ok.
  - destruct (stream_parse lib env fuel s1 payload) as [[b s2] | |] eqn:Hparse;
      try discriminate.
    apply stream_parse_delivers_no_config in Hparse; [| auto].
    destruct Hparse as [l1 [Hl1 Hall1]].
    destruct b.
    + apply IH in H. destruct H as [l2 [Hl2 Hall2]].
      exists (l1 ++ l2). rewrite Hl2, Hl1, Hd, app_assoc.
      split; [reflexivity |]. apply Forall_app. auto.
    + inversion H; subst. simpl. exists l1. rewrite Hl1, Hd. auto.
  - inversion H; subst. simpl. exists []. rewrite app_nil_r, Hd. auto.
Qed.

(** C1, the code at the failing input.  The socket delivers the config item
    (pts = NO_PTS) and then a frame with pts 1000000.  With [SDL_assert]
    compiled out the config item is skipped and the first and only packet
    handed to the recorder is the timestamped frame, which the recorder
    refuses because no header is written; with [SDL_assert] compiled in the
    thread stops on the assertion at the config item. *)
Theorem stream_S1_delivers_frame_first :
  (exists (s' : stream) (r' : recorder),
     run_stream_loop lib_ok (env_complete_frames false) 3 stream_S1 = Ok s' /\
     delivered s'
     = [set_dts (set_pts (parsed_packet frame_bytes) 1000000) 1000000] /\
     ~ config_packet_first (delivered s') /\
     Forall (fun p => pts_absent p = false) (delivered s') /\
     stream_recorder s' = Some r' /\
     header_written r' = false /\
     calls (ctx r') = [] /\
     logs r' = [(LOGE, "The first packet is not a config packet"%string)]) /\
  run_stream_loop lib_ok (env_complete_frames true) 3 stream_S1
  = AssertFailed.
Proof.
  split; [| reflexivity].
  do 2 eexists.
  split; [vm_compute; reflexivity |].
  split; [reflexivity |].
  split; [simpl; discriminate |].
  split; [repeat constructor |].
  split; [reflexivity |].
  repeat split; reflexivity.
Qed.

(** C2, the code at the failing input.  A frame parsed while the recorder
    is attached and its header written: [process_packet] sets pts and dts
    from the received pts and calls [recorder_write], so the frame is
    written by the stream thread itself, and the queue and the condition
    variable are untouched.  [recorder_push], on the same recorder and
    packet, would have queued the packet and written nothing. *)
Theorem process_packet_writes_synchronously :
  let packet := parsed_packet frame_bytes in
  let stamped := set_dts (set_pts packet 1000000) 1000000 in
  (exists (s' : stream) (r' : recorder),
     process_packet lib_ok (env_complete_frames false) stream_recording packet
     = (true, s') /\
     delivered s' = [stamped] /\
     stream_recorder s' = Some r' /\
     queue r' = [] /\
     cond_signals r' = 0%nat /\
     calls (ctx r') = [WriteHeader 0; WriteFrame stamped 0]) /\
  (exists r'' : recorder,
     recorder_push lib_ok recorder_after_header stamped = Some (true, r'') /\
     queue r'' = [stamped] /\
     cond_signals r'' = 1%nat /\
     calls (ctx r'') = [WriteHeader 0]).
Proof.
  cbv zeta. split.
  - do 2 eexists. split; [vm_compute; reflexivity |].
    repeat split; reflexivity.
  - eexists. split; [vm_compute; reflexivity |].
    repeat split; reflexivity.
Qed.

(** The recorder's test for an absent timestamp, on a pts that came over the
    wire: it holds for the wire value 2^63 and for no other, so it never
    holds for the sentinel. *)
Lemma pts_absent_of_wire (p : AVPacket) (wire : Z) :
  in_uint64 wire ->
  (pts_absent (set_pts p (to_int64 wire)) = true <-> wire = 2 ^ 63).
Proof.
  intros Hu. unfold pts_absent. simpl. rewrite Z.eqb_eq.
  unfold AV_NOPTS_VALUE. split.
  - intros H. apply to_int64_inj in H; [exact H | exact Hu |].
    unfold in_uint64. vm_compute. split; [discriminate | reflexivity].
  - intros H. subst wire. reflexivity.
Qed.

(** C10, the code at the failing input.  The sentinel 2^64-1 becomes -1 in
    the packet, but [AV_NOPTS_VALUE] is -2^63: the recorder takes the config
    packet for a timestamped one and refuses it as first packet.  In the
    other direction the wire value 2^63, which is not the sentinel, becomes
    [AV_NOPTS_VALUE] and is taken for a config packet. *)
Theorem sentinel_differs_from_AV_NOPTS_VALUE :
  to_int64 NO_PTS = -1 /\
  AV_NOPTS_VALUE = - 2 ^ 63 /\
  receiver_state_pts stream_at_config = 2 ^ 64 - 1 /\
  (exists (s' : stream) (p : AVPacket) (r' : recorder),
     process_packet lib_ok (env_complete_frames false) stream_at_config
                    (parsed_packet config_bytes)
     = (false, s') /\
     delivered s' = [p] /\
     pts p = -1 /\ dts p = -1 /\
     pts_absent p = false /\
     stream_recorder s' = Some r' /\
     header_written r' = false /\
     logs r' = [(LOGE, "The first packet is not a config packet"%string)]) /\
  (exists (s' : stream) (p : AVPacket) (r' : recorder),
     process_packet lib_ok (env_complete_frames false)
                    (set_receiver_state_pts stream_at_config (2 ^ 63))
                    (parsed_packet config_bytes)
     = (true, s') /\
     delivered s' = [p] /\
     pts_absent p = true /\
     stream_recorder s' = Some r' /\
     header_written r' = true).
Proof.
  split; [reflexivity |]. split; [reflexivity |]. split; [reflexivity |].
  split.
  - do 3 eexists. split; [vm_compute; reflexivity |].
    repeat split; reflexivity.
  - do 3 eexists. split; [vm_compute; reflexivity |].
    repeat split; reflexivity.
Qed.

(** ** The recorder thread, from the stop request to the end *)

Lemma run_recorder_returns_witness :
  exists r' : recorder,
    run_recorder lib_frame_fails
      (S (length (queue recorder_S2_second_frame)))
      (recorder_close_request recorder_S2_second_frame)
    = Exited r'.
Proof.
  exact (run_recorder_returns lib_frame_fails
           (recorder_close_request recorder_S2_second_frame) eq_refl).
Defined.

Lemma timestamped_set_duration (p : AVPacket) (d : Z) :
  timestamped (set_duration p d) = timestamped p.
Proof. reflexivity. Qed.

(** The write policy once the header is written. *)
Lemma recorder_write_after_header (lib : libav) (r : recorder)
    (p : AVPacket) :
  header_written r = true ->
  recorder_write lib r p
  = if timestamped p then recorder_write_frame lib r p else (true, r).
Proof.
  intros Hh. unfold recorder_write, timestamped, pts_absent. rewrite Hh.
  simpl. destruct (pts p =? AV_NOPTS_VALUE); reflexivity.
Qed.

Lemma run_recorder_loop_step (lib : libav) (fuel : nat) (r : recorder) :
  run_recorder_loop lib (S fuel) r
  = match run_recorder_iteration lib r with
    | Wait => Blocked r
    | Continue r' => run_recorder_loop lib fuel r'
    | Break r' => Exited r'
    end.
Proof. reflexivity. Qed.

(** The pass that takes the first packet only moves it to the carry slot. *)
Lemma iteration_first (lib : libav) (r : recorder) (p : AVPacket)
    (rest : list AVPacket) :
  queue r = p :: rest ->
  previous r = None ->
  run_recorder_iteration lib r
  = Continue (set_previous (set_queue r rest) (Some p)).
Proof.
  intros Hq Hp. unfold run_recorder_iteration. rewrite Hq.
  simpl queue_is_empty. rewrite !andb_false_r. cbv iota. simpl previous.
  rewrite Hp. reflexivity.
Qed.

(** A pass that dequeues [next] while [p0] is in the carry slot and the
    header is written. *)
Lemma iteration_dequeue (lib : libav) (r : recorder) (next p0 : AVPacket)
    (rest : list AVPacket) :
  queue r = next :: rest ->
  previous r = Some p0 ->
  header_written r = true ->
  let written := if timestamped next && timestamped p0
                 then set_duration p0 (sub64 (pts next) (pts p0))
                 else p0 in
  let r2 := set_previous (set_queue r rest) (Some next) in
  run_recorder_iteration lib r
  = if timestamped p0 then
      if fst (recorder_write_frame lib r2 written)
      then Continue (snd (recorder_write_frame lib r2 written))
      else Break (recorder_queue_clear
                    (set_failed
                       (log (snd (recorder_write_frame lib r2 written))
                            LOGE "Could not record packet") true))
    else Continue r2.
Proof.
  intros Hq Hp Hh. cbv zeta.
  unfold run_recorder_iteration. rewrite Hq. simpl queue_is_empty.
  rewrite !andb_false_r. cbv iota. simpl previous. rewrite Hp. cbv zeta.
  rewrite recorder_write_after_header by exact Hh.
  unfold timestamped, pts_absent.
  destruct (pts next =? AV_NOPTS_VALUE), (pts p0 =? AV_NOPTS_VALUE) eqn:H0;
    simpl; rewrite ?H0; simpl; try reflexivity;
    match goal with
    | |- context [0 <=? ?x] => destruct (0 <=? x); reflexivity
    end.
Qed.

(** The pass that finds the queue empty after the stop request, with [p0]
    in the carry slot and the header written. *)
Lemma iteration_drain (lib : libav) (r : recorder) (p0 : AVPacket) :
  stopped r = true ->
  queue r = [] ->
  previous r = Some p0 ->
  header_written r = true ->
  let last := set_duration p0 100000 in
  run_recorder_iteration lib r
  = if timestamped p0 then
      if fst (recorder_write_frame lib r last)
      then Break (snd (recorder_write_frame lib r last))
      else Break (log (snd (recorder_write_frame lib r last))
                      LOGW "Could not record last packet")
    else Break r.
Proof.
  intros Hs Hq Hp Hh. cbv zeta.
  unfold run_recorder_iteration. rewrite Hs, Hq, Hp. simpl.
  rewrite recorder_write_after_header by exact Hh.
  rewrite timestamped_set_duration.
  destruct (timestamped p0); [| reflexivity].
  unfold recorder_write_frame. simpl.
  match goal with
  | |- context [0 <=? ?x] => destruct (0 <=? x); reflexivity
  end.
Qed.

(** With the header written, a muxer that accepts every frame and a
    rescaling [f] that does not depend on the context: from the stop request
    on, the thread writes the packet of the carry slot and the queued
    packets in queue order, each once, skipping those without timestamp,
    with the durations of [expected_frames]; it makes no other call. *)
Lemma run_recorder_writes_in_order (lib : libav)
    (f : AVPacket -> AVPacket) (q : list AVPacket) :
  (forall c p, 0 <= av_write_frame lib c p) ->
  (forall c p, av_packet_rescale_ts lib c p = f p) ->
  forall (r : recorder) (p0 : AVPacket),
    stopped r = true ->
    header_written r = true ->
    previous r = Some p0 ->
    queue r = q ->
    exists r' : recorder,
      run_recorder_loop lib (S (length q)) r = Exited r' /\
      failed r' = failed r /\
      header_written r' = true /\
      frames_written (calls (ctx r'))
      = frames_written (calls (ctx r))
        ++ map f (filter timestamped (expected_frames p0 q)) /\
      extradata (ctx r') = extradata (ctx r) /\
      extradata_size (ctx r') = extradata_size (ctx r) /\
      exists body : list av_call,
        calls (ctx r') = calls (ctx r) ++ body /\
        Forall2 (frame_call f) body
                (filter timestamped (expected_frames p0 q)).
Proof.
  intros Hok Hf.
  assert (Hframe : forall r p, fst (recorder_write_frame lib r p) = true).
  { intros r p. unfold recorder_write_frame. simpl.
    apply Z.leb_le. apply Hok. }
  induction q as [| next rest IH]; intros r p0 Hs Hh Hp Hq.
  - cbn [length]. rewrite run_recorder_loop_step.
    rewrite (iteration_drain lib r p0 Hs Hq Hp Hh).
    cbn [expected_frames filter]. rewrite timestamped_set_duration.
    destruct (timestamped p0).
    + rewrite Hframe. eexists. split; [reflexivity |].
      unfold recorder_write_frame. simpl.
      rewrite frames_written_app, Hf. repeat split; auto.
      eexists. split; [reflexivity |].
      constructor; [| constructor].
      eexists. split; [reflexivity | apply Hok].
    + exists r. simpl. rewrite app_nil_r. repeat split; auto.
      exists []. rewrite app_nil_r. split; [reflexivity | constructor].
  - cbn [length]. rewrite run_recorder_loop_step.
    rewrite (iteration_dequeue lib r next p0 rest Hq Hp Hh).
    cbn [expected_frames filter].
    set (written := if timestamped next && timestamped p0
                    then set_duration p0 (sub64 (pts next) (pts p0))
                    else p0).
    assert (Htw : timestamped written = timestamped p0).
    { subst written. destruct (timestamped next && timestamped p0);
        reflexivity. }
    rewrite Htw.
    destruct (timestamped p0).
    + rewrite Hframe.
      destruct (IH (snd (recorder_write_frame lib
                           (set_previous (set_queue r rest) (Some next))
                           written)) next)
        as [r' [Hrun [Hfl [Hhw [Hfr [He [Hes [body [Hbody Hshape]]]]]]]]];
        try reflexivity; try assumption.
      exists r'. split; [exact Hrun |]. split; [exact Hfl |].
      split; [exact Hhw |].
      split.
      { rewrite Hfr. unfold recorder_write_frame. simpl.
        rewrite frames_written_app, Hf. simpl.
        rewrite <- app_assoc. reflexivity. }
      split; [exact He |]. split; [exact Hes |].
      rewrite Hbody. unfold recorder_write_frame. simpl.
      rewrite <- app_assoc, Hf. simpl.
      eexists. split; [reflexivity |].
      constructor; [| exact Hshape].
      eexists. split; [reflexivity | apply Hok].
    + destruct (IH (set_previous (set_queue r rest) (Some next)) next)
        as [r' [Hrun [Hfl [Hhw [Hfr [He [Hes Hbody]]]]]]];
        try reflexivity; try assumption.
      exists r'. repeat split; auto.
Qed.

Lemma run_recorder_writes_in_order_witness :
  exists r' : recorder,
    run_recorder_loop lib_ok 2 (recorder_close_request recorder_S2_second_frame)
    = Exited r' /\
    frames_written (calls (ctx r'))
    = [set_duration (frame_packet 1000000) 40000;
       set_duration (frame_packet 1040000) 100000].
Proof.
  destruct (run_recorder_writes_in_order lib_ok (fun p => p)
              [frame_packet 1040000]
              (fun _ _ => Z.le_refl 0) (fun _ _ => eq_refl)
              (recorder_close_request recorder_S2_second_frame)
              (frame_packet 1000000) eq_refl eq_refl eq_refl eq_refl)
    as [r' [Hrun [_ [_ [Hfr _]]]]].
  exists r'. split; [exact Hrun | exact Hfr].
Defined.

(** ** Failures of the recorder *)

(** X3.  A pass of the recorder thread that dequeued a packet and left the
    loop did so on a failed write: [failed] is set and the queue is empty,
    and from then on every push is refused and leaves the recorder as it
    is. *)
Theorem write_failure_rejects_pushes (lib : libav) (r r' : recorder)
    (packet : AVPacket) :
  queue r <> [] ->
  run_recorder_iteration lib r = Break r' ->
  failed r' = true /\ queue r' = [] /\
  (stopped r' = false -> recorder_push lib r' packet = Some (false, r')).
Proof.
  intros Hq. unfold run_recorder_iteration.
  destruct (queue r) as [| rec rest] eqn:Hqr; [contradiction |].
  simpl queue_is_empty. rewrite !andb_false_r. cbv iota. simpl previous.
  destruct (previous r) as [prev |]; [| discriminate].
  cbv zeta.
  destruct (recorder_write lib _ _) as [ok r3].
  destruct ok; simpl; [discriminate |].
  intros H. inversion H; subst. simpl.
  split; [reflexivity |]. split; [reflexivity |].
  intros Hs. unfold recorder_push. simpl. rewrite Hs. reflexivity.
Qed.

Lemma write_failure_rejects_pushes_witness :
  exists r' : recorder,
    run_recorder_iteration lib_frame_fails recorder_S2_second_frame
    = Break r' /\
    failed r' = true /\
    recorder_push lib_frame_fails r' (frame_packet 1080000)
    = Some (false, r').
Proof.
  eexists. split; [reflexivity |].
  destruct (write_failure_rejects_pushes lib_frame_fails
              recorder_S2_second_frame _ (frame_packet 1080000)
              ltac:(discriminate) eq_refl) as [Hf [_ Hpush]].
  split; [exact Hf | exact (Hpush eq_refl)].
Defined.

(** After the pass that took a timestamped first packet into the carry
    slot with no header written, the next pass either blocks, or leaves the
    loop with nothing written and, unless it was the pass of the stop
    request, [failed] set. *)
Lemma iteration_after_timestamped_first (lib : libav) (r2 : recorder)
    (p0 : AVPacket) :
  header_written r2 = false ->
  previous r2 = Some p0 ->
  pts_absent p0 = false ->
  match run_recorder_iteration lib r2 with
  | Wait => stopped r2 = false /\ queue r2 = []
  | Continue _ => False
  | Break r3 =>
      header_written r3 = false /\ ctx r3 = ctx r2 /\
      (queue r2 <> [] -> failed r3 = true)
  end.
Proof.
  intros Hh Hp Hts.
  assert (Hw : forall r d,
             header_written r = false ->
             recorder_write lib r (set_duration p0 d)
             = (false, log r LOGE "The first packet is not a config packet")).
  { intros r d H. unfold recorder_write. rewrite H. simpl.
    unfold pts_absent in Hts. rewrite Hts. reflexivity. }
  assert (Hw0 : forall r,
             header_written r = false ->
             recorder_write lib r p0
             = (false, log r LOGE "The first packet is not a config packet")).
  { intros r H. unfold recorder_write. rewrite H. simpl.
    unfold pts_absent in Hts. rewrite Hts. reflexivity. }
  unfold run_recorder_iteration.
  destruct (queue r2) as [| p1 rest] eqn:Hq; simpl queue_is_empty.
  - rewrite !andb_true_r. destruct (stopped r2); simpl; [| auto].
    rewrite Hp, Hw by exact Hh. simpl.
    repeat split; auto; intros H; contradiction.
  - rewrite !andb_false_r. cbv iota. simpl previous. rewrite Hp. cbv zeta.
    destruct (negb (pts p1 =? AV_NOPTS_VALUE)
              && negb (pts p0 =? AV_NOPTS_VALUE)).
    + rewrite Hw by exact Hh. simpl. auto.
    + rewrite Hw0 by exact Hh. simpl. auto.
Qed.

(** X4.  A recording whose first packet carries a timestamp fails and
    writes nothing.  Start [run_recorder] with no header written, an empty
    carry slot and a timestamped packet at the head of the queue, stopped
    or not: every run that returns ends with [failed] set, [header_written]
    false and no call made on the output context, however many packets
    follow; and the run does return as soon as a second packet is queued or
    the stop request is in. *)
Theorem timestamped_first_packet_fails (lib : libav) (r : recorder)
    (p0 : AVPacket) (rest : list AVPacket) :
  header_written r = false ->
  previous r = None ->
  queue r = p0 :: rest ->
  pts_absent p0 = false ->
  (forall (fuel : nat) (r' : recorder),
     run_recorder lib fuel r = Exited r' ->
     failed r' = true /\
     header_written r' = false /\
     calls (ctx r') = calls (ctx r)) /\
  (stopped r = true \/ rest <> [] ->
   exists r' : recorder,
     run_recorder lib (S (length (queue r))) r = Exited r').
Proof.
  intros Hh Hp Hq Hts.
  pose proof (iteration_after_timestamped_first lib
                (set_previous (set_queue r rest) (Some p0)) p0
                Hh eq_refl Hts) as Hnext.
  assert (Hfin : forall r3 : recorder,
             header_written r3 = false ->
             failed (run_recorder_finish lib r3) = true /\
             header_written (run_recorder_finish lib r3) = false /\
             ctx (run_recorder_finish lib r3) = ctx r3).
  { intros r3 H3. unfold run_recorder_finish.
    destruct (failed r3) eqn:Hf3; simpl; rewrite ?H3, ?Hf3; simpl;
      rewrite ?Hf3; simpl; auto. }
  split.
  - intros fuel r' Hrun. unfold run_recorder in Hrun.
    destruct fuel as [| fuel]; [discriminate |].
    rewrite run_recorder_loop_step in Hrun.
    rewrite (iteration_first lib r p0 rest Hq Hp) in Hrun.
    destruct fuel as [| fuel]; [discriminate |].
    rewrite run_recorder_loop_step in Hrun.
    destruct (run_recorder_iteration lib
                (set_previous (set_queue r rest) (Some p0)))
      as [| r3 | r3]; [discriminate | contradiction |].
    destruct Hnext as [Hh3 [Hc3 _]].
    inversion Hrun; subst.
    destruct (Hfin r3 Hh3) as [Hf [Hhw Hc]].
    split; [exact Hf |]. split; [exact Hhw |].
    rewrite Hc, Hc3. reflexivity.
  - intros Hgo. rewrite Hq. unfold run_recorder. cbn [length].
    rewrite run_recorder_loop_step.
    rewrite (iteration_first lib r p0 rest Hq Hp).
    rewrite run_recorder_loop_step.
    destruct (run_recorder_iteration lib
                (set_previous (set_queue r rest) (Some p0)))
      as [| r3 | r3]; [| contradiction | eauto].
    exfalso. simpl in Hnext. destruct Hnext as [Hs Hr].
    destruct Hgo as [Hgo | Hgo]; [congruence | contradiction].
Qed.

Lemma timestamped_first_packet_fails_witness :
  let r := set_queue recorder_init
                     [frame_packet 1000000; frame_packet 1040000] in
  stopped r = false /\
  exists r' : recorder,
    run_recorder lib_ok (S (length (queue r))) r = Exited r' /\
    failed r' = true /\ calls (ctx r') = calls (ctx r).
Proof.
  intros r. split; [reflexivity |].
  destruct (timestamped_first_packet_fails lib_ok r
              (frame_packet 1000000) [frame_packet 1040000]
              eq_refl eq_refl eq_refl eq_refl) as [Hall Hex].
  assert (Hne : [frame_packet 1040000] <> []) by (intros H; inversion H).
  destruct (Hex (or_intror Hne)) as [r' Hrun].
  exists r'. split; [exact Hrun |].
  destruct (Hall _ r' Hrun) as [Hf [_ Hc]].
  split; [exact Hf | exact Hc].
Defined.

(** X5.  [run_recorder] reports success only for a complete file: if it
    ends with [failed] false, the header was written, the last call on the
    output context is [av_write_trailer], and that call succeeded. *)
Theorem run_recorder_success_is_complete (lib : libav) (fuel : nat)
    (r r' : recorder) :
  run_recorder lib fuel r = Exited r' ->
  failed r' = false ->
  header_written r' = true /\
  exists (body : list av_call) (ret : Z),
    calls (ctx r') = body ++ [WriteTrailer ret] /\ 0 <= ret.
Proof.
  unfold run_recorder.
  destruct (run_recorder_loop lib fuel r) as [r1 | r1 |]; try discriminate.
  intros H. inversion H; subst. clear H.
  unfold run_recorder_finish.
  destruct (failed r1) eqn:Hf; simpl.
  - rewrite Hf. simpl. rewrite Hf. discriminate.
  - destruct (header_written r1) eqn:Hh.
    + destruct (av_write_trailer lib (ctx r1) <? 0) eqn:Hret; simpl.
      * discriminate.
      * rewrite Hf. simpl. intros _. split; [exact Hh |].
        apply Z.ltb_ge in Hret. eauto.
    + simpl. discriminate.
Qed.

Lemma run_recorder_success_is_complete_witness :
  exists r' : recorder,
    record_all lib_ok [config_packet; frame_packet 1000000] = Exited r' /\
    header_written r' = true.
Proof.
  eexists. split; [vm_compute; reflexivity |].
  refine (proj1 (run_recorder_success_is_complete lib_ok 3
                   (recorder_close_request
                      (push_all lib_ok recorder_init
                                [config_packet; frame_packet 1000000]))
                   _ _ _)); vm_compute; reflexivity.
Defined.

(** ** What the recorder keeps true *)

Lemma header_state_app (hw : bool) (l1 l2 : list av_call) :
  header_state hw (l1 ++ l2)
  = match header_state hw l1 with
    | Some h => header_state h l2
    | None => None
    end.
Proof.
  revert hw. induction l1 as [| c l1 IH]; intros hw; [reflexivity |].
  destruct c; simpl; destruct hw; auto.
Qed.

Lemma recorder_write_keeps_order (lib : libav) (r : recorder)
    (p : AVPacket) :
  header_state false (calls (ctx r)) = Some (header_written r) ->
  header_state false (calls (ctx (snd (recorder_write lib r p))))
  = Some (header_written (snd (recorder_write lib r p))).
Proof.
  intros H. unfold_write.
  destruct (header_written r) eqn:Hh; simpl.
  - destruct (pts p =? AV_NOPTS_VALUE); simpl; [rewrite Hh; exact H |].
    rewrite header_state_app, H, Hh. reflexivity.
  - destruct (pts p =? AV_NOPTS_VALUE); simpl; [| rewrite Hh; exact H].
    destruct (av_malloc_ok lib (ctx r) (size p)); simpl;
      [| rewrite Hh; exact H].
    destruct (avformat_write_header lib _ <? 0) eqn:Hret; simpl;
      rewrite header_state_app, H; simpl.
    + apply Z.ltb_lt in Hret. rewrite Hh.
      f_equal. apply Z.leb_gt. exact Hret.
    + apply Z.ltb_ge in Hret. f_equal. apply Z.leb_le. exact Hret.
Qed.

Lemma recorder_step_keeps_invariant (lib : libav) (r r' : recorder)
    (a : recorder_action) :
  recorder_invariant r ->
  recorder_step lib r a = Some r' ->
  recorder_invariant r'.
Proof.
  intros [Hord Hfq]. destruct a as [packet | |]; simpl.
  - unfold recorder_push.
    destruct (stopped r); [discriminate |].
    destruct (failed r) eqn:Hf.
    + intros H. inversion H; subst. split; [exact Hord |]. auto.
    + destruct (record_packet_new lib (queue r) packet);
        intros H; inversion H; subst; split; simpl; auto;
        rewrite Hf; discriminate.
  - unfold run_recorder_iteration.
    destruct (negb (stopped r) && queue_is_empty (queue r)); [discriminate |].
    destruct (stopped r && queue_is_empty (queue r)).
    + destruct (previous r) as [last |].
      * pose proof (recorder_write_keeps_order lib r
                      (set_duration last 100000) Hord) as Hk.
        pose proof (recorder_write_frame_of_state lib r
                      (set_duration last 100000)) as Hs.
        destruct (recorder_write lib r (set_duration last 100000))
          as [ok r1].
        simpl in Hk, Hs. destruct Hs as [Hf1 [_ [Hq1 _]]].
        destruct ok; simpl; intros H; inversion H; subst; split; simpl;
          auto; rewrite Hf1, Hq1; exact Hfq.
      * intros H. inversion H; subst. split; assumption.
    + destruct (queue r) as [| rec rest] eqn:Hq; [discriminate |].
      cbv zeta. simpl previous.
      assert (Hnf : failed r = false).
      { destruct (failed r); [| reflexivity].
        specialize (Hfq eq_refl). discriminate. }
      destruct (previous r) as [prev |].
      * match goal with
        | |- context [recorder_write lib ?a ?b] =>
            pose proof (recorder_write_keeps_order lib a b Hord) as Hk;
            pose proof (recorder_write_frame_of_state lib a b) as Hs;
            destruct (recorder_write lib a b) as [ok r3]
        end.
        simpl in Hk, Hs. destruct Hs as [Hf3 _].
        destruct ok; simpl; intros H; inversion H; subst; split; simpl;
          auto.
        rewrite Hf3, Hnf. discriminate.
      * intros H. inversion H; subst. split; simpl; [exact Hord |].
        rewrite Hnf. discriminate.
  - intros H. inversion H; subst. split; simpl; assumption.
Qed.

(** X6.  Whatever the two threads do, in whatever order, the calls made on
    the output context are in the order a muxer accepts (header attempts
    until one succeeds, then frames only, no frame before the header),
    [header_written] is true exactly when a header call succeeded, and a
    failed recorder has an empty queue. *)
Theorem recorder_keeps_invariant (lib : libav) (l : list recorder_action) :
  forall r : recorder,
    recorder_steps lib recorder_init l = Some r ->
    recorder_invariant r.
Proof.
  assert (Hgen : forall r0 r : recorder,
             recorder_invariant r0 ->
             recorder_steps lib r0 l = Some r ->
             recorder_invariant r).
  { induction l as [| a rest IH]; intros r0 r Hinv H.
    - inversion H; subst. exact Hinv.
    - simpl in H.
      destruct (recorder_step lib r0 a) as [r1 |] eqn:Hstep;
        [| discriminate].
      eapply IH; [| exact H].
      eapply recorder_step_keeps_invariant; eassumption. }
  intros r. apply Hgen. split; [reflexivity | discriminate].
Qed.

Lemma recorder_keeps_invariant_witness :
  exists r : recorder,
    recorder_steps lib_frame_fails recorder_init
      [DoPush config_packet; DoIterate; DoPush (frame_packet 1000000);
       DoPush (frame_packet 1040000); DoIterate; DoIterate; DoClose]
    = Some r /\
    recorder_invariant r /\ failed r = true.
Proof.
  eexists. split; [vm_compute; reflexivity |].
  split; [| reflexivity].
  apply (recorder_keeps_invariant lib_frame_fails
           [DoPush config_packet; DoIterate; DoPush (frame_packet 1000000);
            DoPush (frame_packet 1040000); DoIterate; DoIterate; DoClose]).
  vm_compute. reflexivity.
Defined.

(** ** The stream thread *)

Lemma run_stream_loop_delivers_no_config_witness :
  exists (s' : stream) (l : list AVPacket),
    run_stream_loop lib_ok (env_complete_frames false) 3 stream_S1 = Ok s' /\
    delivered s' = delivered stream_S1 ++ l /\
    Forall (fun p => carries_no_pts p = false) l.
Proof.
  eexists.
  assert (H : run_stream_loop lib_ok (env_complete_frames false) 3 stream_S1
              = Ok _) by (vm_compute; reflexivity).
  destruct (run_stream_loop_delivers_no_config lib_ok
              (env_complete_frames false) 3 stream_S1 _ H) as [l [Hl Hall]].
  exists l. split; [exact H |]. split; [exact Hl | exact Hall].
Defined.

Lemma process_packet_never_enqueues_witness :
  exists r' : recorder,
    stream_recorder
      (snd (process_packet lib_ok (env_complete_frames false)
              stream_recording (parsed_packet frame_bytes)))
    = Some r' /\
    queue r' = [] /\ cond_signals r' = 0%nat.
Proof.
  exact (process_packet_never_enqueues lib_ok (env_complete_frames false)
           stream_recording (parsed_packet frame_bytes)
           recorder_after_header eq_refl).
Defined.

Lemma to_int32_small (z : Z) : - 2 ^ 31 <= z < 2 ^ 31 -> to_int32 z = z.
Proof.
  unfold to_int32. intros H.
  change (2 ^ 31) with 2147483648 in *.
  change (2 ^ 32) with 4294967296.
  rewrite Z.mod_small; lia.
Qed.

(** [process_packet] leaves the socket and the sinks attached as they are. *)
Lemma process_packet_keeps (lib : libav) (env : stream_env) (s : stream)
    (packet : AVPacket) :
  let s' := snd (process_packet lib env s packet) in
  socket s' = socket s /\ stream_decoder s' = stream_decoder s /\
  (stream_recorder s = None -> delivered s' = delivered s).
Proof.
  unfold process_packet.
  destruct (stream_decoder s && negb (decoder_push env packet)); simpl; auto.
  destruct (stream_recorder s) as [r |]; simpl; auto.
  destruct (recorder_write lib r _) as [ok r']. destruct ok; simpl;
    repeat split; auto; discriminate.
Qed.

Lemma stream_parse_loop_keeps (lib : libav) (env : stream_env)
    (fuel : nat) :
  forall (s : stream) (in_data : list byte) (in_len : Z) (b : bool)
         (s' : stream),
    stream_parse_loop lib env fuel s in_data in_len = Ok (b, s') ->
    receiver_state_pts s' = receiver_state_pts s /\
    socket s' = socket s /\
    exists l : list AVPacket,
      delivered s' = delivered s ++ l /\
      Forall (fun p => pts p = to_int64 (receiver_state_pts s) /\
                       dts p = to_int64 (receiver_state_pts s)) l.
Proof.
  induction fuel as [| fuel IH]; intros s in_data in_len b s' H.
  - simpl in H. destruct (in_len =? 0); [| discriminate].
    inversion H; subst. repeat split.
    exists []. rewrite app_nil_r. auto.
  - cbn [stream_parse_loop] in H.
    destruct (in_len =? 0).
    { inversion H; subst. repeat split.
      exists []. rewrite app_nil_r. auto. }
    cbv zeta in H.
    destruct (negb (out_len (av_parser_parse2 env (parser_calls s) in_data
                                              in_len)
                    =? 0)).
    + match type of H with
      | context [process_packet lib env ?a ?p] =>
          pose proof (process_packet_delivered lib env a p) as Hd;
          pose proof (process_packet_keeps lib env a p) as Hk;
          destruct (process_packet lib env a p) as [ok s2]
      end.
      simpl in Hd, Hk. destruct Hd as [Hpts [l1 [Hl1 Hall1]]].
      destruct Hk as [Hsock _].
      destruct ok; simpl in H.
      * apply IH in H. destruct H as [Hpts' [Hsock' [l2 [Hl2 Hall2]]]].
        split; [congruence |]. split; [congruence |].
        exists (l1 ++ l2). rewrite Hl2, Hl1, app_assoc.
        split; [reflexivity |].
        apply Forall_app. split; [exact Hall1 |].
        rewrite Hpts in Hall2. exact Hall2.
      * inversion H; subst. simpl. split; [exact Hpts |].
        split; [exact Hsock |]. exists l1. auto.
    + apply IH in H. simpl in H. exact H.
Qed.

(** What [process_packet] does when a recorder is attached: the recorder
    stays attached and the parser's count untouched; on success the stamped
    packet has been handed over, on failure either nothing (the decoder
    refused it) or the stamped packet (the recorder refused it). *)
Lemma process_packet_hands_over (lib : libav) (env : stream_env)
    (s : stream) (packet : AVPacket) (r : recorder) :
  stream_recorder s = Some r ->
  let res := process_packet lib env s packet in
  parser_calls (snd res) = parser_calls s /\
  (exists r', stream_recorder (snd res) = Some r') /\
  (fst res = true ->
     delivered (snd res)
     = delivered s ++ [stamped (receiver_state_pts s) packet]) /\
  (fst res = false ->
     delivered (snd res) = delivered s \/
     delivered (snd res)
     = delivered s ++ [stamped (receiver_state_pts s) packet]).
Proof.
  intros Hr. unfold process_packet.
  destruct (stream_decoder s && negb (decoder_push env packet)); simpl.
  - repeat split; eauto. discriminate.
  - rewrite Hr. destruct (recorder_write lib r _) as [ok r'].
    destruct ok; simpl; repeat split; eauto.
Qed.

Lemma stream_parse_loop_hands_over (lib : libav) (env : stream_env)
    (fuel : nat) :
  forall (s : stream) (in_data : list byte) (in_len : Z) (b : bool)
         (s' : stream) (r : recorder),
    stream_recorder s = Some r ->
    stream_parse_loop lib env fuel s in_data in_len = Ok (b, s') ->
    let made := map (stamped (receiver_state_pts s))
                    (parser_packets env fuel (parser_calls s)
                                    in_data in_len) in
    (b = true -> delivered s' = delivered s ++ made) /\
    exists k : nat, delivered s' = delivered s ++ firstn k made.
Proof.
  induction fuel as [| fuel IH]; intros s in_data in_len b s' r Hr H.
  - simpl in H. simpl. destruct (in_len =? 0); [| discriminate].
    inversion H; subst. simpl. rewrite app_nil_r.
    split; [reflexivity |]. exists 0%nat. rewrite app_nil_r. reflexivity.
  - cbn [stream_parse_loop parser_packets] in *.
    destruct (in_len =? 0).
    { inversion H; subst. simpl. rewrite app_nil_r.
      split; [reflexivity |]. exists 0%nat. rewrite app_nil_r.
      reflexivity. }
    cbv zeta in *.
    set (res := av_parser_parse2 env (parser_calls s) in_data in_len) in *.
    destruct (negb (out_len res =? 0)).
    + set (packet := if key_frame res =? 1
                     then set_flags (av_init_packet (out_data res))
                            (Z.lor (flags (av_init_packet (out_data res)))
                                   AV_PKT_FLAG_KEY)
                     else av_init_packet (out_data res)) in *.
      pose proof (process_packet_hands_over lib env (parser_called s)
                    packet r Hr) as Hd.
      pose proof (process_packet_delivered lib env (parser_called s)
                    packet) as Hp.
      destruct (process_packet lib env (parser_called s) packet)
        as [ok s2].
      simpl in Hd, Hp. destruct Hd as [Hcalls [[r2 Hr2] [Hok Hko]]].
      destruct Hp as [Hpts _].
      destruct ok; simpl in H.
      * specialize (Hok eq_refl).
        destruct (IH _ _ _ _ _ r2 Hr2 H) as [Hall [k Hk]].
        rewrite Hcalls, Hpts in Hall, Hk. simpl in Hall, Hk.
        cbn [map]. split.
        -- intros Hb. rewrite (Hall Hb), Hok, <- app_assoc. reflexivity.
        -- exists (S k). rewrite Hk, Hok, <- app_assoc. reflexivity.
      * inversion H; subst. simpl. split; [discriminate |].
        destruct (Hko eq_refl) as [Hsame | Hone].
        -- exists 0%nat. rewrite Hsame, app_nil_r. reflexivity.
        -- exists 1%nat. rewrite Hone. simpl. reflexivity.
    + apply (IH (parser_called s) _ _ _ _ r Hr) in H. simpl in H. exact H.
Qed.

(** X8.  With a recorder attached, what [stream_parse] hands to it is what
    the parser makes of the payload: when the call returns true, exactly the
    packets the parser made, in order, each with the pts of the payload's
    meta-header as pts and as dts; when it returns false, the first few of
    them; none when the received pts is [NO_PTS].  The call changes neither
    the received pts nor the socket. *)
Theorem stream_parse_stamps_packets (lib : libav) (env : stream_env)
    (fuel : nat) (s s' : stream) (payload : list byte) (b : bool)
    (r : recorder) :
  stream_recorder s = Some r ->
  stream_parse lib env fuel s payload = Ok (b, s') ->
  let made :=
    if receiver_state_pts s =? NO_PTS then []
    else map (stamped (receiver_state_pts s))
             (parser_packets env fuel (parser_calls s) payload
                             (to_int32 (Z.of_nat (length payload)))) in
  receiver_state_pts s' = receiver_state_pts s /\
  socket s' = socket s /\
  (b = true -> delivered s' = delivered s ++ made) /\
  (exists k : nat, delivered s' = delivered s ++ firstn k made) /\
  Forall (fun p => pts p = to_int64 (receiver_state_pts s) /\
                   dts p = to_int64 (receiver_state_pts s)) made.
Proof.
  intros Hr. unfold stream_parse.
  destruct (sdl_assert_enabled env && (receiver_state_pts s =? NO_PTS));
    [discriminate |].
  destruct (receiver_state_pts s =? NO_PTS); simpl.
  - intros H. inversion H; subst. rewrite app_nil_r.
    repeat split; auto. exists 0%nat. rewrite app_nil_r. reflexivity.
  - intros H.
    pose proof (stream_parse_loop_keeps lib env fuel _ _ _ _ _ H)
      as [Hpts [Hsock _]].
    destruct (stream_parse_loop_hands_over lib env fuel _ _ _ _ _ r Hr H)
      as [Hall Hk].
    split; [exact Hpts |]. split; [exact Hsock |].
    split; [exact Hall |]. split; [exact Hk |].
    apply Forall_forall. intros p Hin. apply in_map_iff in Hin.
    destruct Hin as [q [Hq _]]. subst p. split; reflexivity.
Qed.

Lemma stream_parse_stamps_packets_witness :
  exists s' : stream,
    stream_parse lib_ok (env_complete_frames false) 1 stream_recording
                 frame_bytes
    = Ok (true, s') /\
    delivered s' = [stamped 1000000 (parsed_packet frame_bytes)].
Proof.
  eexists.
  assert (H : stream_parse lib_ok (env_complete_frames false) 1
                stream_recording frame_bytes = Ok (true, _))
    by (vm_compute; reflexivity).
  split; [exact H |].
  destruct (stream_parse_stamps_packets lib_ok (env_complete_frames false) 1
              stream_recording _ frame_bytes true recorder_after_header
              eq_refl H)
    as [_ [_ [Hall _]]].
  exact (Hall eq_refl).
Defined.

(** ** The stream thread returns *)

(** With a parser that makes progress, the parse loop ends within one pass
    per input byte. *)
Lemma stream_parse_loop_ends (lib : libav) (env : stream_env) :
  parser_progresses env ->
  forall (fuel : nat) (s : stream) (in_data : list byte) (in_len : Z),
    0 <= in_len < 2 ^ 31 ->
    (Z.to_nat in_len <= fuel)%nat ->
    exists (b : bool) (s' : stream),
      stream_parse_loop lib env fuel s in_data in_len = Ok (b, s').
Proof.
  intros Hprog.
  induction fuel as [| fuel IH]; intros s in_data in_len Hlen Hfuel.
  - assert (in_len = 0) by lia. subst. simpl. eauto.
  - cbn [stream_parse_loop].
    destruct (in_len =? 0) eqn:Hz; [eauto |].
    apply Z.eqb_neq in Hz. cbv zeta.
    pose proof (Hprog (parser_calls s) in_data in_len ltac:(lia)) as Hr.
    set (res := av_parser_parse2 env (parser_calls s) in_data in_len) in *.
    assert (Hnext : to_int32 (in_len - consumed res) = in_len - consumed res).
    { apply to_int32_small. change (2 ^ 31) with 2147483648 in *. lia. }
    rewrite Hnext.
    assert (Hlen' : 0 <= in_len - consumed res < 2 ^ 31) by lia.
    assert (Hfuel' : (Z.to_nat (in_len - consumed res) <= fuel)%nat) by lia.
    destruct (negb (out_len res =? 0)).
    + destruct (process_packet lib env _ _) as [ok s2].
      destruct ok; simpl; [| eauto].
      apply IH; assumption.
    + apply IH; assumption.
Qed.

(** X10.  With a parser that makes progress, [stream_parse] ends on a
    payload shorter than 2^31 bytes within one pass of its loop per byte:
    given that much fuel it returns a result or stops on its assertion. *)
Theorem stream_parse_ends (lib : libav) (env : stream_env) (fuel : nat)
    (s : stream) (payload : list byte) :
  parser_progresses env ->
  Z.of_nat (length payload) < 2 ^ 31 ->
  (length payload <= fuel)%nat ->
  stream_parse lib env fuel s payload <> NoFuel.
Proof.
  intros Hprog Hlen Hfuel. unfold stream_parse.
  destruct (sdl_assert_enabled env && (receiver_state_pts s =? NO_PTS));
    [discriminate |].
  destruct (negb (receiver_state_pts s =? NO_PTS)); [| discriminate].
  rewrite to_int32_small
    by (change (2 ^ 31) with 2147483648 in *; lia).
  destruct (stream_parse_loop_ends lib env Hprog fuel s payload
              (Z.of_nat (length payload)) ltac:(lia) ltac:(lia))
    as [b [s' H]].
  rewrite H. discriminate.
Qed.

Lemma env_complete_frames_progresses (asserts : bool) :
  parser_progresses (env_complete_frames asserts).
Proof. intros n input len Hlen. simpl. lia. Qed.

Lemma stream_parse_ends_witness :
  stream_parse lib_ok (env_complete_frames false) 5 stream_recording
               frame_bytes
  <> NoFuel.
Proof.
  apply (stream_parse_ends lib_ok (env_complete_frames false) 5
           stream_recording frame_bytes
           (env_complete_frames_progresses false)).
  - vm_compute. reflexivity.
  - vm_compute. repeat constructor.
Defined.

(** What a successful [stream_recv_packet] took off the socket: the twelve
    bytes of the meta-header and the payload. *)
Lemma stream_recv_packet_consumes (env : stream_env) (s s1 : stream)
    (payload : list byte) :
  stream_recv_packet env s = Ok (true, payload, s1) ->
  (length payload + length (socket s1) + 12 = length (socket s))%nat.
Proof.
  unfold stream_recv_packet, net_recv_all.
  change (Z.to_nat HEADER_SIZE) with 12%nat.
  pose proof (length_firstn 12 (socket s)) as Hhead.
  pose proof (length_skipn 12 (socket s)) as Htail.
  set (header := firstn 12 (socket s)) in *.
  set (sock1 := skipn 12 (socket s)) in *.
  destruct (Z.of_nat (length header) <? HEADER_SIZE) eqn:Hh;
    [intros H; inversion H |].
  apply Z.ltb_ge in Hh. unfold HEADER_SIZE in Hh.
  destruct (sdl_assert_enabled env && _); [discriminate |].
  destruct (negb (av_malloc_packet_ok env _));
    [intros H; inversion H |].
  cbn [socket set_socket set_receiver_state_pts].
  set (n := Z.to_nat (buffer_read32be (skipn 8 header))).
  pose proof (firstn_skipn n sock1) as Hsplit.
  apply (f_equal (@length byte)) in Hsplit.
  rewrite length_app in Hsplit.
  match goal with
  | |- context [if ?c then Ok (false, _, _) else _] => destruct c
  end; intros H; inversion H; subst.
  cbn [socket set_socket set_receiver_state_pts]. lia.
Qed.

Lemma stream_parse_keeps_socket (lib : libav) (env : stream_env)
    (fuel : nat) (s s' : stream) (payload : list byte) (b : bool) :
  stream_parse lib env fuel s payload = Ok (b, s') ->
  socket s' = socket s.
Proof.
  unfold stream_parse.
  destruct (sdl_assert_enabled env && (receiver_state_pts s =? NO_PTS));
    [discriminate |].
  destruct (negb (receiver_state_pts s =? NO_PTS)).
  - intros H. apply stream_parse_loop_keeps in H. apply H.
  - intros H. inversion H; subst. reflexivity.
Qed.

(** X11.  With a parser that makes progress, the loop of [run_stream]
    returns on every socket content shorter than 2^31 bytes: each pass takes
    at least the twelve bytes of a meta-header off the socket, so one pass
    per byte and one more are enough for it to end, at the end of the
    stream, on a refused packet or on an assertion. *)
Theorem run_stream_loop_ends (lib : libav) (env : stream_env) :
  parser_progresses env ->
  forall (fuel : nat) (s : stream),
    (length (socket s) < fuel)%nat ->
    Z.of_nat (length (socket s)) < 2 ^ 31 ->
    run_stream_loop lib env fuel s <> NoFuel.
Proof.
  intros Hprog.
  induction fuel as [| fuel IH]; intros s Hfuel Hlen; [lia |].
  cbn [run_stream_loop].
  destruct (stream_recv_packet env s) as [[[ok payload] s1] | |] eqn:Hrecv.
  - destruct ok; [| discriminate].
    apply stream_recv_packet_consumes in Hrecv.
    destruct (stream_parse lib env fuel s1 payload) as [[b s2] | |] eqn:Hp.
    + destruct b; [| discriminate].
      apply stream_parse_keeps_socket in Hp.
      apply IH; rewrite Hp; lia.
    + discriminate.
    + exfalso. revert Hp. apply stream_parse_ends; [exact Hprog | lia | lia].
  - discriminate.
  - unfold stream_recv_packet in Hrecv. revert Hrecv.
    destruct (net_recv_all (socket s) HEADER_SIZE) as [header sock1].
    destruct (Z.of_nat (length header) <? HEADER_SIZE); [discriminate |].
    destruct (sdl_assert_enabled env && _); [discriminate |].
    destruct (negb (av_malloc_packet_ok env _)); [discriminate |].
    destruct (net_recv_all _ _) as [buf sock2].
    destruct (Z.of_nat (length buf) <? _); discriminate.
Qed.

Lemma run_stream_loop_ends_witness :
  run_stream_loop lib_ok (env_complete_frames true) 37 stream_S1 <> NoFuel.
Proof.
  apply (run_stream_loop_ends lib_ok (env_complete_frames true)
           (env_complete_frames_progresses true) 37 stream_S1).
  - vm_compute. repeat constructor.
  - vm_compute. reflexivity.
Defined.

(** ** Framing *)

Lemma byte_val_byte_of_Z (v : Z) : 0 <= v < 256 -> byte_val (byte_of_Z v) = v.
Proof.
  intros Hv. unfold byte_val, byte_of_Z.
  pose proof (Byte.to_of_N_option_map (Z.to_N v)) as H.
  destruct (Byte.of_N (Z.to_N v)) as [b |] eqn:Hb.
  - apply Byte.to_of_N in Hb. rewrite Hb. lia.
  - simpl in H. destruct (N.leb_spec (Z.to_N v) 255); [discriminate | lia].
Qed.

Lemma read_be_app (l : list byte) (b : byte) :
  forall acc : Z, read_be acc (l ++ [b]) = read_be acc l * 256 + byte_val b.
Proof.
  induction l as [| x l IH]; intros acc; simpl; [reflexivity | apply IH].
Qed.

Lemma length_be_bytes (n : nat) : forall z : Z, length (be_bytes n z) = n.
Proof.
  induction n as [| n IH]; intros z; simpl; [reflexivity |].
  rewrite length_app, IH. simpl. lia.
Qed.

(** Reading back a big-endian encoding gives the value. *)
Lemma read_be_be_bytes (n : nat) :
  forall z : Z, 0 <= z < 256 ^ Z.of_nat n -> read_be 0 (be_bytes n z) = z.
Proof.
  induction n as [| n IH]; intros z Hz.
  - simpl in *. lia.
  - cbn [be_bytes]. rewrite read_be_app.
    rewrite Nat2Z.inj_succ, Z.pow_succ_r in Hz by lia.
    rewrite IH.
    + rewrite byte_val_byte_of_Z by (apply Z.mod_pos_bound; lia).
      pose proof (Z.div_mod z 256 ltac:(lia)). lia.
    + split; [apply Z.div_pos; lia |].
      apply Z.div_lt_upper_bound; lia.
Qed.

Lemma firstn_length_app {A : Type} (l l' : list A) :
  firstn (length l) (l ++ l') = l.
Proof. induction l as [| x l IH]; simpl; [reflexivity | now rewrite IH]. Qed.

(** X12.  The framing of the wire protocol: when the socket starts with the
    eight bytes of a pts in big-endian order, the four bytes of a length in
    big-endian order and that many bytes of payload, [stream_recv_packet]
    succeeds, hands out exactly the payload, stores exactly that pts and
    leaves on the socket exactly what follows the item. *)
Theorem stream_recv_packet_wire_item (env : stream_env) (s : stream)
    (pts_ : Z) (payload rest : list byte) :
  in_uint64 pts_ ->
  0 < Z.of_nat (length payload) < 2 ^ 32 ->
  av_malloc_packet_ok env (Z.of_nat (length payload)) = true ->
  stream_recv_packet env (set_socket s (wire_item pts_ payload ++ rest))
  = Ok (true, payload, set_socket (set_receiver_state_pts s pts_) rest).
Proof.
  intros Hpts Hlen Hmalloc.
  unfold stream_recv_packet, net_recv_all, wire_item.
  change (Z.to_nat HEADER_SIZE) with 12%nat.
  cbn [socket set_socket].
  set (hp := be_bytes 8 pts_).
  set (hl := be_bytes 4 (Z.of_nat (length payload))).
  assert (Lp : length hp = 8%nat) by apply length_be_bytes.
  assert (Ll : length hl = 4%nat) by apply length_be_bytes.
  assert (L12 : length (hp ++ hl) = 12%nat)
    by (rewrite length_app; lia).
  replace ((hp ++ hl ++ payload) ++ rest)
    with ((hp ++ hl) ++ (payload ++ rest))
    by (rewrite <- !app_assoc; reflexivity).
  assert (F12 : firstn 12 ((hp ++ hl) ++ payload ++ rest) = hp ++ hl)
    by (rewrite <- L12; apply firstn_length_app).
  assert (S12 : skipn 12 ((hp ++ hl) ++ payload ++ rest) = payload ++ rest)
    by (rewrite <- L12; apply skipn_length_app).
  rewrite F12, S12, L12.
  change (Z.of_nat 12 <? HEADER_SIZE) with false. cbv iota.
  assert (Hrp : buffer_read64be (hp ++ hl) = pts_).
  { unfold buffer_read64be. rewrite <- Lp, firstn_length_app.
    apply read_be_be_bytes. exact Hpts. }
  assert (Hrl : buffer_read32be (skipn 8 (hp ++ hl))
                = Z.of_nat (length payload)).
  { unfold buffer_read32be. rewrite <- Lp, skipn_length_app.
    rewrite <- Ll, firstn_all.
    apply read_be_be_bytes.
    change (256 ^ Z.of_nat 4) with (2 ^ 32). lia. }
  rewrite Hrl, Hrp, Hmalloc.
  assert (Hnz : (Z.of_nat (length payload) =? 0) = false)
    by (apply Z.eqb_neq; lia).
  rewrite Hnz, andb_false_r. cbn [negb].
  cbn [socket set_socket set_receiver_state_pts].
  rewrite Nat2Z.id, firstn_length_app, skipn_length_app.
  rewrite Z.ltb_irrefl. reflexivity.
Qed.

Lemma stream_recv_packet_wire_item_witness :
  stream_recv_packet (env_complete_frames true)
    (set_socket stream_at_config (wire_item 1000000 frame_bytes ++ []))
  = Ok (true, frame_bytes,
        set_socket (set_receiver_state_pts stream_at_config 1000000) []).
Proof.
  apply (stream_recv_packet_wire_item (env_complete_frames true)
           stream_at_config 1000000 frame_bytes []).
  - unfold in_uint64. vm_compute. split; [discriminate | reflexivity].
  - vm_compute. split; reflexivity.
  - reflexivity.
Defined.

(** ** Sequences of offers and takes *)

Lemma count_available_app (l1 l2 : list invocation) :
  count_available (l1 ++ l2)
  = (count_available l1 + count_available l2)%nat.
Proof.
  unfold count_available. rewrite filter_app, length_app. reflexivity.
Qed.

(** The callbacks an offer calls. *)
Lemma offer_frame_invoked (vb vb' : video_buffer) (p : picture) :
  offer_frame vb p = Some vb' ->
  exists l : list invocation,
    invoked vb' = invoked vb ++ l /\
    count_available l
    = (if pending_frame_consumed vb then 1 else 0)%nat.
Proof.
  unfold offer_frame, video_buffer_producer_offer_frame. simpl.
  destruct (cbs vb) as [c |]; [| discriminate].
  destruct (pending_frame_consumed vb); simpl.
  - destruct (on_frame_available c); [| discriminate].
    intros H. inversion H; subst. simpl. eexists. split; reflexivity.
  - destruct (on_frame_skipped c); intros H; inversion H; subst; simpl.
    + eexists. split; reflexivity.
    + exists []. rewrite app_nil_r. split; reflexivity.
Qed.

(** X13.  Latest wins, for a burst of any length: after any number of
    offers with no take in between, the pending frame is the picture offered
    last and the next take returns it; every picture offered before it has
    been released, in the order offered; and [on_frame_available] has been
    called once if the consumer had taken the previous frame, not at all
    otherwise. *)
Theorem offers_latest_wins (c : video_buffer_callbacks)
    (ps : list picture) :
  on_frame_available c = true ->
  forall (vb : video_buffer) (p : picture),
    cbs vb = Some c ->
    exists (vb' vb'' : video_buffer) (l : list invocation),
      vb_steps vb (map Offer (ps ++ [p])) = Some vb' /\
      pending_frame vb' = Some p /\
      video_buffer_consumer_take_frame vb' = Some (Some p, vb'') /\
      released vb' = released vb ++ slot (pending_frame vb) ++ ps /\
      invoked vb' = invoked vb ++ l /\
      count_available l = (if pending_frame_consumed vb then 1 else 0)%nat.
Proof.
  intros Ha.
  induction ps as [| q ps IH]; intros vb p Hc.
  - destruct (offer_frame_slots vb c p Hc Ha)
      as [vb' [Hoff [Hpend [_ [_ [Hflag [_ Hrel]]]]]]].
    destruct (offer_frame_invoked vb vb' p Hoff) as [l [Hl Hcount]].
    exists vb'. eexists. exists l.
    cbn [app map vb_steps vb_step]. rewrite Hoff.
    split; [reflexivity |]. split; [exact Hpend |].
    split.
    { unfold video_buffer_consumer_take_frame. rewrite Hflag. simpl.
      rewrite Hpend. reflexivity. }
    split; [| split; assumption].
    rewrite Hrel, app_nil_r. destruct (pending_frame vb); reflexivity.
  - destruct (offer_frame_slots vb c q Hc Ha)
      as [vb1 [Hoff [Hpend [_ [_ [Hflag [Hc1 Hrel]]]]]]].
    destruct (offer_frame_invoked vb vb1 q Hoff) as [l1 [Hl1 Hcount1]].
    destruct (IH vb1 p Hc1)
      as [vb' [vb'' [l2 [Hrun [Hp' [Htake [Hrel' [Hl2 Hcount2]]]]]]]].
    exists vb', vb'', (l1 ++ l2).
    cbn [app map vb_steps vb_step]. rewrite Hoff.
    split; [exact Hrun |]. split; [exact Hp' |]. split; [exact Htake |].
    split.
    { rewrite Hrel', Hrel, Hpend. simpl. rewrite <- !app_assoc.
      destruct (pending_frame vb); reflexivity. }
    split.
    { rewrite Hl2, Hl1, app_assoc. reflexivity. }
    rewrite count_available_app, Hcount1, Hcount2, Hflag. lia.
Qed.

Lemma offers_latest_wins_witness :
  exists (vb' vb'' : video_buffer),
    vb_steps vb_registered [Offer 1%N; Offer 2%N; Offer 3%N] = Some vb' /\
    video_buffer_consumer_take_frame vb' = Some (Some 3%N, vb'') /\
    released vb' = [1%N; 2%N].
Proof.
  destruct (offers_latest_wins cbs_both [1%N; 2%N] eq_refl
              vb_registered 3%N eq_refl)
    as [vb' [vb'' [l [Hrun [_ [Htake [Hrel _]]]]]]].
  exists vb', vb''. split; [exact Hrun |]. split; [exact Htake | exact Hrel].
Defined.

(** The pictures in the slots and the released ones, after one operation. *)
Lemma vb_step_conserves (vb vb' : video_buffer) (op : vb_operation) :
  producer_frame vb = None ->
  vb_step vb op = Some vb' ->
  producer_frame vb' = None /\ cbs vb' = cbs vb /\
  Permutation (held vb' ++ released vb')
              (offered [op] ++ held vb ++ released vb).
Proof.
  intros Hprod. destruct op as [p |]; simpl.
  - unfold offer_frame, video_buffer_producer_offer_frame. simpl.
    destruct (cbs vb) as [c |] eqn:Hc; [| discriminate].
    assert (Hgoal : forall rel,
               Permutation
                 (p :: slot (consumer_frame vb)
                    ++ match pending_frame vb with
                       | Some q => rel ++ [q]
                       | None => rel
                       end)
                 (p :: slot (pending_frame vb)
                    ++ slot (consumer_frame vb) ++ rel)).
    { intros rel. apply perm_skip.
      destruct (pending_frame vb) as [q |]; simpl; [| reflexivity].
      rewrite app_assoc. symmetry. apply Permutation_cons_append. }
    unfold held.
    destruct (pending_frame_consumed vb); simpl.
    + destruct (on_frame_available c); [| discriminate].
      intros H. inversion H; subst. simpl. rewrite Hprod. simpl.
      repeat split; auto. rewrite <- app_assoc. apply Hgoal.
    + destruct (on_frame_skipped c); intros H; inversion H; subst; simpl;
        rewrite Hprod; simpl; repeat split; auto;
        rewrite <- app_assoc; apply Hgoal.
  - unfold video_buffer_consumer_take_frame.
    destruct (pending_frame_consumed vb); [discriminate |].
    intros H. inversion H; subst. simpl. unfold held. simpl.
    rewrite Hprod. simpl. repeat split.
    destruct (consumer_frame vb) as [q |]; simpl;
      [| rewrite !app_nil_r; reflexivity].
    rewrite <- app_assoc. simpl.
    apply Permutation_app_head. symmetry. apply Permutation_cons_append.
Qed.

(** X14.  No picture is lost and none is released twice: after any sequence
    of offers and takes that passes the assertions, the pictures held in the
    three slots together with the pictures released are exactly the
    pictures held and released before together with the pictures offered;
    the producer's slot is blank again and the callbacks are unchanged. *)
Theorem vb_conserves_pictures (ops : list vb_operation) :
  forall vb vb' : video_buffer,
    producer_frame vb = None ->
    vb_steps vb ops = Some vb' ->
    producer_frame vb' = None /\ cbs vb' = cbs vb /\
    Permutation (held vb' ++ released vb')
                (offered ops ++ held vb ++ released vb).
Proof.
  induction ops as [| op ops IH]; intros vb vb' Hprod H.
  - inversion H; subst. repeat split; auto.
  - cbn [vb_steps] in H.
    destruct (vb_step vb op) as [vb1 |] eqn:Hstep; [| discriminate].
    destruct (vb_step_conserves vb vb1 op Hprod Hstep)
      as [Hprod1 [Hc1 Hperm1]].
    destruct (IH vb1 vb' Hprod1 H) as [Hprod' [Hc' Hperm']].
    split; [exact Hprod' |]. split; [congruence |].
    etransitivity; [exact Hperm' |].
    etransitivity;
      [apply Permutation_app_head; exact Hperm1 |].
    destruct op as [p |]; simpl.
    + symmetry. apply Permutation_middle.
    + reflexivity.
Qed.

Lemma vb_conserves_pictures_witness :
  exists vb' : video_buffer,
    vb_steps vb_registered [Offer 1%N; Offer 2%N; Take; Offer 3%N; Take]
    = Some vb' /\
    Permutation (held vb' ++ released vb') [1%N; 2%N; 3%N].
Proof.
  eexists.
  assert (H : vb_steps vb_registered
                [Offer 1%N; Offer 2%N; Take; Offer 3%N; Take] = Some _)
    by (vm_compute; reflexivity).
  split; [exact H |].
  exact (proj2 (proj2 (vb_conserves_pictures _ vb_registered _ eq_refl H))).
Defined.

(** X15.  The consumer may take once per frame made available: with the
    callbacks registered, a sequence of offers and takes passes every
    assertion exactly when each take comes after an offer that no earlier
    take has consumed. *)
Theorem vb_steps_pass_assertions (c : video_buffer_callbacks)
    (ops : list vb_operation) :
  on_frame_available c = true ->
  forall vb : video_buffer,
    cbs vb = Some c ->
    (vb_steps vb ops <> None
     <-> takes_allowed (pending_frame_consumed vb) ops = true).
Proof.
  intros Ha.
  induction ops as [| op ops IH]; intros vb Hc.
  - simpl. split; [reflexivity | discriminate].
  - destruct op as [p |]; cbn [vb_steps vb_step takes_allowed].
    + destruct (offer_frame_slots vb c p Hc Ha)
        as [vb1 [Hoff [_ [_ [_ [Hflag [Hc1 _]]]]]]].
      rewrite Hoff, <- Hflag. apply IH. exact Hc1.
    + unfold video_buffer_consumer_take_frame.
      destruct (pending_frame_consumed vb); simpl.
      * split; [intros H; contradiction | discriminate].
      * apply (IH (unref_pending_frame
                     (swap_consumer_pending
                        (set_pending_frame_consumed vb true)))).
        exact Hc.
Qed.

Lemma vb_steps_pass_assertions_witness :
  vb_steps vb_registered [Offer 1%N; Take; Take] = None /\
  vb_steps vb_registered [Offer 1%N; Offer 2%N; Take] <> None.
Proof.
  split.
  - destruct (vb_steps vb_registered [Offer 1%N; Take; Take]) eqn:H;
      [| reflexivity].
    assert (Hn : vb_steps vb_registered [Offer 1%N; Take; Take] <> None)
      by (rewrite H; discriminate).
    apply (vb_steps_pass_assertions cbs_both _ eq_refl vb_registered eq_refl)
      in Hn.
    discriminate Hn.
  - apply (vb_steps_pass_assertions cbs_both _ eq_refl vb_registered eq_refl).
    reflexivity.
Defined.

(** ** A whole recording *)







(** A packet without timestamp in the middle of a recording is skipped, and
    the frame before it keeps the duration it was pushed with. *)
Example record_all_skips_later_config :
  frames_written
    (calls_of (record_all lib_ok [config_packet; frame_packet 1000000;
                                  config_packet]))
  = [frame_packet 1000000].
Proof. vm_compute. reflexivity. Qed.
